(** * Danbooru-Analytics server (src/server.py): a shallow embedding

    The five tools of the server are pure queries over one global pandas
    DataFrame [df] with the columns [created_at] (UTC timestamps) and
    [tag_string].  The frame is modelled as the list of its rows, carrying
    the default [RangeIndex] (row labels are positions); an empty list is
    [df.empty], which is also what the failed load at lines 23-27 leaves
    behind.  Every tool returns a formatted text; here it returns the
    structured value the text is rendered from, together with the list of
    chart files it saved through [plt.savefig]. *)

From Stdlib Require Import ZArith Lia Ascii String DecimalString.
From Stdlib Require Import Floats.PrimFloat Uint63.
From stdpp Require Import base decidable list sorting gmap strings.

Local Open Scope Z_scope.

(** ** Python string operations

    Strings are byte strings (UTF-8).  Substring and suffix tests on
    well-formed UTF-8 coincide with the same tests on code points. *)

Module Str.

(** [pat in s] *)
Fixpoint contains (pat s : string) : bool :=
  String.prefix pat s ||
  match s with
  | EmptyString => false
  | String _ s' => contains pat s'
  end.

(** [s.endswith(suf)] for one suffix *)
Fixpoint endswith (s suf : string) : bool :=
  if String.eqb s suf then true
  else match s with
       | EmptyString => false
       | String _ s' => endswith s' suf
       end.

(** [s.endswith(sufs)] for a tuple of suffixes *)
Definition endswith_any (s : string) (sufs : list string) : bool :=
  existsb (endswith s) sufs.

(** ASCII characters for which [str.isspace] holds. *)
Definition is_space (c : ascii) : bool :=
  let n := nat_of_ascii c in
  ((9 <=? n) && (n <=? 13) || (28 <=? n) && (n <=? 32))%nat.

(** [s.split()]: maximal runs of non-space characters. [cur] is the
    token being read, in reverse. *)
Fixpoint split_go (cur : option string) (s : string) : list string :=
  match s with
  | EmptyString => option_list (String.rev <$> cur)
  | String a s' =>
      if is_space a
      then option_list (String.rev <$> cur) ++ split_go None s'
      else split_go (Some (String a (default EmptyString cur))) s'
  end.
Definition split (s : string) : list string := split_go None s.

(** [sep.join(parts)] *)
Fixpoint join (sep : string) (parts : list string) : string :=
  match parts with
  | [] => EmptyString
  | [p] => p
  | p :: ps => p +:+ sep +:+ join sep ps
  end.

(** [s.replace(a, b)] for single characters *)
Fixpoint replace_char (a b : ascii) (s : string) : string :=
  match s with
  | EmptyString => EmptyString
  | String c s' => String (if Ascii.eqb c a then b else c) (replace_char a b s')
  end.

(** [str(n)] for an int *)
Definition of_Z (n : Z) : string := NilZero.string_of_int (Z.to_int n).

End Str.

(** ** Configuration (lines 30-53) *)

Definition SPECIFIC_BANS : gset string :=
  list_to_set
    [ "star_(symbol)"; "star_(sky)"; "pom_pom_(clothes)"; "shrug_(clothing)";
      "poke_ball_(basic)"; "vision_(genshin_impact)"; "sensei_(blue_archive)";
      "idolmaster_(classic)"; "mahou_shoujo_madoka_magica_(anime)";
      "admiral_(kancolle)"; "producer_(idolmaster)"; "commander_(azur_lane)";
      "doctor_(arknights)"; "traveler_(genshin_impact)"; "trainer_(pokemon)";
      "summoner_(fire_emblem)"; "gudako_(fate/grand_order)"; "unknown_(series)";
      "check_commentary_(request)"; "translation_(request)"; "original_(character)";
      "spot_the_difference"; "comic"; "monochrome"; "heart"; "exclamation_point" ].

Definition BAD_SUFFIXES : list string :=
  [ "_(series)"; "_(medium)"; "_(style)"; "_(source)";
    "_(cosplay)"; "_(object)"; "_(group)"; "_(production)";
    "_(creature)"; "_(game)"; "_(request)"; "_(event)";
    "_(art_style)"; "_(artist)"; "_(lore)"; "_(meta)";
    "_(costume)"; "_(parody)" ].

Definition VIPS : gset string :=
  list_to_set
    [ "hatsune_miku"; "hakurei_reimu"; "kirisame_marisa";
      "remilia_scarlet"; "flandre_scarlet"; "kochiya_sanae";
      "izayoi_sakuya"; "konpaku_youmu"; "cirno"; "kagamine_rin" ].

(** [YearInput]: [ge=2005, le=2025]. *)
Definition YearInput (year : Z) : bool := (2005 <=? year) && (year <=? 2025).

(** ** The entity classifier

    The rule chain is written inline in both ranking loops (lines 141-147
    and 277-282).  It is stated once over an arbitrary rule set, and
    [classify] is its instance at the server's constants. *)

Section Classifier.
Variable bans vips : gset string.
Variable bad_suffixes : list string.

Definition has_parens (tag : string) : bool :=
  Str.contains "_(" tag && Str.endswith tag ")".

Definition classify_with (tag : string) : bool :=
  if bool_decide (tag ∈ bans) then false
  else
    let is_vip := bool_decide (tag ∈ vips) in
    if is_vip || has_parens tag
    then negb (Str.endswith_any tag bad_suffixes)
    else false.
End Classifier.

Definition classify : string → bool :=
  classify_with SPECIFIC_BANS VIPS BAD_SUFFIXES.

(** ** [collections.Counter]

    A Counter is a dict: keys in first-insertion order, each with its
    count. *)

Abbreviation counter := (list (string * nat)).

Fixpoint counter_incr (tag : string) (c : counter) : counter :=
  match c with
  | [] => [(tag, 1%nat)]
  | (k, n) :: c' =>
      if String.eqb k tag then (k, S n) :: c' else (k, n) :: counter_incr tag c'
  end.

Definition Counter (tokens : list string) : counter :=
  fold_left (λ c t, counter_incr t c) tokens [].

(** [most_common(n)] is [sorted(items, key=count, reverse=True)[:n]]: a
    stable sort, so equal counts stay in first-encountered order. *)
Fixpoint insert_desc (x : string * nat) (l : counter) : counter :=
  match l with
  | [] => [x]
  | y :: l' =>
      if (x.2 <? y.2)%nat then y :: insert_desc x l' else x :: y :: l'
  end.

Definition sort_desc (c : counter) : counter := foldr insert_desc [] c.

Definition most_common (n : nat) (c : counter) : counter :=
  take n (sort_desc c).

(** ** The ranking loops *)

(** Lines 140-148 of [get_top_waifus_by_year]; [top_chars] is the list
    built so far. *)
Fixpoint waifu_loop (items : counter) (top_chars : list string) : list string :=
  match items with
  | [] => top_chars
  | (tag, count) :: rest =>
      if bool_decide (tag ∈ SPECIFIC_BANS) then waifu_loop rest top_chars
      else
        let is_vip := bool_decide (tag ∈ VIPS) in
        let top_chars' :=
          if is_vip || has_parens tag
          then if negb (Str.endswith_any tag BAD_SUFFIXES)
               then top_chars ++ [tag] else top_chars
          else top_chars in
        if (length top_chars' =? 10)%nat then top_chars'
        else waifu_loop rest top_chars'
  end.

Definition top_chars_of (counts : counter) : list string :=
  waifu_loop (most_common 5000 counts) [].

(** Lines 276-287 of [analyze_tag_driver].  [top_drivers] holds the pairs
    that line 284 formats as ["{t} ({count})"]; their second components
    are [plot_values]. *)
Fixpoint driver_loop (tag : string) (items : counter) (top_drivers : counter)
  : counter :=
  match items with
  | [] => top_drivers
  | (t, count) :: rest =>
      if String.eqb t tag || bool_decide (t ∈ SPECIFIC_BANS)
      then driver_loop tag rest top_drivers
      else
        let is_vip := bool_decide (t ∈ VIPS) in
        let top_drivers' :=
          if is_vip || has_parens t
          then if negb (Str.endswith_any t BAD_SUFFIXES)
               then top_drivers ++ [(t, count)] else top_drivers
          else top_drivers in
        if (length top_drivers' =? 5)%nat then top_drivers'
        else driver_loop tag rest top_drivers'
  end.

Definition top_drivers_of (tag : string) (counts : counter) : counter :=
  driver_loop tag (most_common 2000 counts) [].

(** ** The data frame *)

(** A [created_at] value: a UTC calendar instant, as civil date plus the
    nanoseconds elapsed since midnight.  All instants are in one zone
    ([utc=True] at line 25), so they compare field by field. *)
Record Timestamp := mkTimestamp {
  ts_year : Z;
  ts_month : Z;
  ts_day : Z;
  ts_nanos : Z
}.

Definition ts_leb (a b : Timestamp) : bool :=
  if ts_year a <? ts_year b then true
  else if ts_year b <? ts_year a then false
  else if ts_month a <? ts_month b then true
  else if ts_month b <? ts_month a then false
  else if ts_day a <? ts_day b then true
  else if ts_day b <? ts_day a then false
  else ts_nanos a <=? ts_nanos b.

Definition ts_ltb (a b : Timestamp) : bool := negb (ts_leb b a).

(** A well-formed civil instant (month lengths are not needed below). *)
Definition ts_wf (t : Timestamp) : Prop :=
  1 <= ts_month t <= 12 ∧ 1 <= ts_day t <= 31 ∧
  0 <= ts_nanos t < 86400000000000.

(** [tag_string] is [None] where the column holds a missing value.  Every
    row carries a timestamp: the column is taken to hold no [NaT]. *)
Record Row := mkRow {
  created_at : Timestamp;
  tag_string : option string
}.

Abbreviation DataFrame := (list Row).

(** [df.empty] *)
Definition empty (df : DataFrame) : bool :=
  match df with [] => true | _ => false end.

(** [df['tag_string'].str.contains(pat, regex=False, na=False)] on one row *)
Definition str_contains (pat : string) (r : Row) : bool :=
  match tag_string r with
  | Some s => Str.contains pat s
  | None => false
  end.

(** [df.loc[mask]] *)
Definition loc (mask : Row → bool) (df : DataFrame) : DataFrame :=
  List.filter mask df.

(** [df.loc[mask].index] under the RangeIndex starting at [start] *)
Fixpoint loc_index (mask : Row → bool) (start : nat) (df : DataFrame)
  : list nat :=
  match df with
  | [] => []
  | r :: df' =>
      (if mask r then [start] else []) ++ loc_index mask (S start) df'
  end.

(** [subset['tag_string'].dropna()] *)
Definition dropna (subset : DataFrame) : list string :=
  omap tag_string subset.

(** [" ".join(subset['tag_string'].dropna()).split()] *)
Definition all_tags (subset : DataFrame) : list string :=
  Str.split (Str.join " " (dropna subset)).

(** The string [f"{year}-01-01"] compared against the column is parsed as
    midnight UTC of that day; likewise [f"{year}-12-31"]. *)
Definition start_date (year : Z) : Timestamp := mkTimestamp year 1 1 0.
Definition end_date (year : Z) : Timestamp := mkTimestamp year 12 31 0.

(** The mask of lines 124-128 and 260-264. *)
Definition year_mask (year : Z) (tag : string) (r : Row) : bool :=
  ts_leb (start_date year) (created_at r) &&
  ts_leb (created_at r) (end_date year) &&
  str_contains tag r.

(** ** Monthly resampling

    [subset.set_index('created_at').resample('ME').size()]: one bucket per
    calendar month from the month of the earliest row to the month of the
    latest one, months without rows included with count 0.  A month is
    numbered [12 * year + (month - 1)]; pandas labels it with its last
    day. *)

Definition month_of (t : Timestamp) : Z := 12 * ts_year t + (ts_month t - 1).

Definition is_leap (y : Z) : bool :=
  (y mod 4 =? 0) && (negb (y mod 100 =? 0) || (y mod 400 =? 0)).

Definition days_in_month (y m : Z) : Z :=
  if m =? 2 then (if is_leap y then 29 else 28)
  else if (m =? 4) || (m =? 6) || (m =? 9) || (m =? 11) then 30
  else 31.

(** The month-end label of month number [p]. *)
Definition month_end (p : Z) : Timestamp :=
  let y := p / 12 in
  let m := p mod 12 + 1 in
  mkTimestamp y m (days_in_month y m) 0.

Definition min_month (subset : DataFrame) (d : Z) : Z :=
  foldr (λ r acc, Z.min (month_of (created_at r)) acc) d subset.
Definition max_month (subset : DataFrame) (d : Z) : Z :=
  foldr (λ r acc, Z.max (month_of (created_at r)) acc) d subset.

Definition count_in_month (subset : DataFrame) (p : Z) : nat :=
  length (List.filter (λ r, month_of (created_at r) =? p) subset).

(** The series as (month number, count) pairs in index order. *)
Definition resample_ME_size (subset : DataFrame) : list (Z * nat) :=
  match subset with
  | [] => []
  | r :: _ =>
      let p0 := month_of (created_at r) in
      let lo := min_month subset p0 in
      let hi := max_month subset p0 in
      (λ p, (p, count_in_month subset p)) <$> seqZ lo (hi - lo + 1)
  end.

(** [monthly.max()] and [monthly.idxmax()] (first bucket holding the
    maximum). *)
Definition series_max (monthly : list (Z * nat)) : nat :=
  foldr (λ b acc, Nat.max b.2 acc) 0%nat monthly.

Fixpoint first_with_count (m : nat) (monthly : list (Z * nat)) : option Z :=
  match monthly with
  | [] => None
  | (p, n) :: rest => if (n =? m)%nat then Some p else first_with_count m rest
  end.

Definition series_idxmax (monthly : list (Z * nat)) : option Z :=
  first_with_count (series_max monthly) monthly.

(** ** Tool results *)

(** What a tool's return text reports.  [InputError], [YearOutOfRange],
    ... stand for the fixed messages of the early [return]s. *)
Inductive Outcome :=
  | DatasetNotLoaded
  | InputError (year : Z)
  | YearOutOfRange
  | NoDataForYear (year : Z)
  | NoDataForTag (tag : string)
  | NoDataForTagInYear (tag : string) (year : Z)
  | CharacterNotFound (char : string)
  | CompareNotFound (char : string)
  | TopWaifus (year : Z) (top_chars : list string)
  | CharacterStats (tag : string) (total : nat) (peak_date : option Timestamp)
      (peak_count : nat) (still_active : bool) (save_path : string)
  | ShipAnalysis (char1 char2 : string) (percentage : float)
      (total joint : nat)
  | TagDrivers (tag : string) (year : Z) (total : nat) (top_drivers : counter)
      (save_path : string)
  | Comparison (char1 char2 : string) (total1 total2 : nat) (winner : string)
      (save_path : string).

(** A tool run: the chart files written by [plt.savefig], in order, and
    the outcome. *)
Abbreviation Run := (list string * Outcome)%type.

(** [int / int]: Python rounds the exact quotient to the nearest double,
    which is the IEEE quotient of the operands as long as both are below
    2^53, far above any row count. *)
Definition float_of_nat (n : nat) : float :=
  PrimFloat.of_uint63 (Uint63.of_Z (Z.of_nat n)).

Definition true_div (a b : nat) : float :=
  PrimFloat.div (float_of_nat a) (float_of_nat b).

(** [os.path.join] on POSIX paths *)
Definition path_join (a b : string) : string :=
  if String.prefix "/" b then b
  else if String.eqb a "" || Str.endswith a "/" then a +:+ b
  else a +:+ "/" +:+ b.

Section Tools.
(** The globals of lines 16-27. *)
Variable charts_dir : string.
Variable df : DataFrame.

(** Lines 82-94. *)
Definition get_safe_filename (query_str prefix : string) : string :=
  let safe_tag :=
    Str.replace_char " " "_"
      (Str.replace_char "/" "_" (Str.replace_char ":" "_" query_str)) in
  path_join charts_dir (prefix +:+ "_" +:+ safe_tag +:+ ".png").

(** Lines 100-152. *)
Definition get_top_waifus_by_year (year : Z) : Run :=
  if empty df then ([], DatasetNotLoaded)
  else if negb (YearInput year) then ([], InputError year)
  else
    let subset := loc (year_mask year "1girl") df in
    if empty subset then ([], NoDataForYear year)
    else
      let counts := Counter (all_tags subset) in
      ([], TopWaifus year (top_chars_of counts)).

(** Lines 156-202. *)
Definition get_character_stats (character_tag : string) : Run :=
  if empty df then ([], DatasetNotLoaded)
  else
    let subset := loc (str_contains character_tag) df in
    if empty subset then ([], NoDataForTag character_tag)
    else
      let total := length subset in
      let monthly := resample_ME_size subset in
      let peak_date := month_end <$> series_idxmax monthly in
      let peak_count := series_max monthly in
      let save_path := get_safe_filename character_tag "popularity" in
      let still_active :=
        match last monthly with
        | Some (_, n) => (20 <? n)%nat
        | None => false
        end in
      ([save_path],
       CharacterStats character_tag total peak_date peak_count still_active
         save_path).

(** Lines 206-234. *)
Definition calculate_ship_dependency (char1 char2 : string) : Run :=
  if empty df then ([], DatasetNotLoaded)
  else
    let set1 : gset nat := list_to_set (loc_index (str_contains char1) 0 df) in
    if bool_decide (set1 = ∅) then ([], CharacterNotFound char1)
    else
      let set2 : gset nat := list_to_set (loc_index (str_contains char2) 0 df) in
      let intersection := size (set1 ∩ set2) in
      let percentage := PrimFloat.mul (true_div intersection (size set1)) 100 in
      ([], ShipAnalysis char1 char2 percentage (size set1) intersection).

(** Lines 238-307. *)
Definition analyze_tag_driver (year : Z) (tag : string) : Run :=
  if empty df then ([], DatasetNotLoaded)
  else if negb (YearInput year) then ([], YearOutOfRange)
  else
    let subset := loc (year_mask year tag) df in
    if empty subset then ([], NoDataForTagInYear tag year)
    else
      let counts := Counter (all_tags subset) in
      let top_drivers := top_drivers_of tag counts in
      let save_path :=
        get_safe_filename (Str.of_Z year +:+ "_" +:+ tag) "drivers" in
      ([save_path],
       TagDrivers tag year (length subset) top_drivers save_path).

(** Lines 324-328. *)
Definition get_stats (tag : string) : option (nat * list (Z * nat)) :=
  let subset := loc (str_contains tag) df in
  if empty subset then None
  else Some (length subset, resample_ME_size subset).

(** Lines 311-361. *)
Definition compare_characters (char1 char2 : string) : Run :=
  if empty df then ([], DatasetNotLoaded)
  else
    match get_stats char1, get_stats char2 with
    | None, _ => ([], CompareNotFound char1)
    | Some _, None => ([], CompareNotFound char2)
    | Some (total1, _), Some (total2, _) =>
        let save_path :=
          get_safe_filename (char1 +:+ "_vs_" +:+ char2) "compare" in
        let winner := if (total2 <? total1)%nat then char1 else char2 in
        ([save_path], Comparison char1 char2 total1 total2 winner save_path)
    end.
End Tools.

(** ** A small data frame for worked runs *)

Definition at_noon (y m d : Z) : Timestamp := mkTimestamp y m d 43200000000000.

Definition demo_df : DataFrame :=
  replicate 5 (mkRow (at_noon 2016 3 14) (Some "1girl hatsune_miku solo")) ++
  replicate 3 (mkRow (at_noon 2016 6 2) (Some "1girl rem_(re:zero) hatsune_miku")) ++
  [ mkRow (at_noon 2016 6 3) None ].

(** ** Vocabulary of the statements *)

(** The test a scanned item passes in [get_top_waifus_by_year] ... *)
Definition qualifies (p : string * nat) : bool := classify p.1.

(** ... and in [analyze_tag_driver], which also skips the queried tag. *)
Definition drives (tag : string) (p : string * nat) : bool :=
  negb (String.eqb p.1 tag) && classify p.1.

(** Number of occurrences of a token. *)
Definition occurrences (t : string) (tokens : list string) : nat :=
  length (List.filter (String.eqb t) tokens).

(** [counts[t]], 0 for a missing key. *)
Fixpoint count_of (c : counter) (t : string) : nat :=
  match c with
  | [] => 0%nat
  | (k, n) :: c' => if String.eqb k t then n else count_of c' t
  end.

(** Non-increasing count along a list of items. *)
Definition count_desc (x y : string * nat) : Prop := (y.2 ≤ x.2)%nat.

(** Rows whose [tag_string] is present. *)
Definition has_tags (r : Row) : bool :=
  match tag_string r with Some _ => true | None => false end.

(** [len(df.loc[mask])] for the substring mask of one tag. *)
Definition total_of (df : DataFrame) (tag : string) : nat :=
  length (loc (str_contains tag) df).

(** Sum of the counts of a series. *)
Definition series_total (monthly : list (Z * nat)) : nat :=
  sum_list monthly.*2.

(** 1 for a row of month [p], else 0. *)
Definition in_month (r : Row) (p : Z) : nat :=
  if month_of (created_at r) =? p then 1%nat else 0%nat.

(** A record uploaded at noon on the last day of 2016. *)
Definition new_years_eve_row : Row :=
  mkRow (at_noon 2016 12 31) (Some "1girl hatsune_miku").

(** 100 records tagged [a], 40 of them also tagged [b], among others. *)
Definition ship_df : DataFrame :=
  replicate 40 (mkRow (at_noon 2019 5 1) (Some "a b")) ++
  replicate 7 (mkRow (at_noon 2019 5 2) (Some "b")) ++
  replicate 60 (mkRow (at_noon 2019 5 3) (Some "a")) ++
  [ mkRow (at_noon 2019 5 4) None ].

(** 100 records tagged [x_(one)] against 80 tagged [y_(two)], and a frame
    where both have 3. *)
Definition duel_df : DataFrame :=
  replicate 100 (mkRow (at_noon 2020 1 15) (Some "solo x_(one)")) ++
  replicate 80 (mkRow (at_noon 2021 2 15) (Some "solo y_(two)")).

Definition tie_df : DataFrame :=
  replicate 3 (mkRow (at_noon 2020 1 15) (Some "solo x_(one)")) ++
  replicate 3 (mkRow (at_noon 2021 2 15) (Some "solo y_(two)")).

(** The outcomes that report a rejected argument. *)
Definition is_input_error (o : Outcome) : bool :=
  match o with
  | InputError _ | YearOutOfRange => true
  | _ => false
  end.

(** Case analysis on every integer comparison of the goal. *)
Ltac case_cmp :=
  repeat match goal with
  | |- context [(?a <? ?b)%Z] => destruct (Z.ltb_spec a b)
  | |- context [(?a <=? ?b)%Z] => destruct (Z.leb_spec a b)
  | |- context [(?a =? ?b)%Z] => destruct (Z.eqb_spec a b)
  end.

(** The characters of a string. *)
Definition chars (s : string) : list ascii := list_ascii_of_string s.

(** Mapping the three characters that [get_safe_filename] replaces. *)
Definition safe_tag (query_str : string) : string :=
  Str.replace_char " " "_"
    (Str.replace_char "/" "_" (Str.replace_char ":" "_" query_str)).

(** The items with a given count. *)
Definition with_count (k : nat) (c : counter) : counter :=
  List.filter (λ p, (p.2 =? k)%nat) c.

(** The chart path an outcome reports, if any. *)
Definition reported_chart (o : Outcome) : list string :=
  match o with
  | CharacterStats _ _ _ _ _ save_path => [save_path]
  | TagDrivers _ _ _ _ save_path => [save_path]
  | Comparison _ _ _ _ _ save_path => [save_path]
  | _ => []
  end.

(** The winner an outcome names, if any. *)
Definition winner_of (o : Outcome) : option string :=
  match o with
  | Comparison _ _ _ _ winner _ => Some winner
  | _ => None
  end.


(** A record of mid-March 2016. *)
Definition march_row : Row :=
  mkRow (at_noon 2016 3 14) (Some "1girl hatsune_miku solo").

(** * Properties *)

(** ** Worked runs *)

Example classify_miku : classify "hatsune_miku" = true.
Proof. vm_compute. reflexivity. Qed.

Example classify_rem : classify "rem_(re:zero)" = true.
Proof. vm_compute. reflexivity. Qed.

Example classify_series : classify "touhou_(series)" = false.
Proof. vm_compute. reflexivity. Qed.

Example top_chars_small :
  top_chars_of (Counter (Str.split "1girl hatsune_miku 1girl rem_(re:zero) comic 1girl hatsune_miku"))
  = ["hatsune_miku"; "rem_(re:zero)"].
Proof. vm_compute. reflexivity. Qed.

Example demo_top :
  get_top_waifus_by_year demo_df 2016
  = ([], TopWaifus 2016 ["hatsune_miku"; "rem_(re:zero)"]).
Proof. vm_compute. reflexivity. Qed.

Example demo_stats :
  get_character_stats "/srv/charts" demo_df "rem_(re:zero)"
  = (["/srv/charts/popularity_rem_(re_zero).png"],
     CharacterStats "rem_(re:zero)" 3 (Some (mkTimestamp 2016 6 30 0)) 3 false
       "/srv/charts/popularity_rem_(re_zero).png").
Proof. vm_compute. reflexivity. Qed.

Example demo_ship :
  calculate_ship_dependency demo_df "hatsune_miku" "rem"
  = ([], ShipAnalysis "hatsune_miku" "rem" 37.5 8 3).
Proof. vm_compute. reflexivity. Qed.

Example demo_drivers :
  analyze_tag_driver "/srv/charts" demo_df 2016 "solo"
  = (["/srv/charts/drivers_2016_solo.png"],
     TagDrivers "solo" 2016 5 [("hatsune_miku", 5%nat)]
       "/srv/charts/drivers_2016_solo.png").
Proof. vm_compute. reflexivity. Qed.

Example demo_compare :
  compare_characters "/srv/charts" demo_df "hatsune_miku" "rem_(re:zero)"
  = (["/srv/charts/compare_hatsune_miku_vs_rem_(re_zero).png"],
     Comparison "hatsune_miku" "rem_(re:zero)" 8 3 "hatsune_miku"
       "/srv/charts/compare_hatsune_miku_vs_rem_(re_zero).png").
Proof. vm_compute. reflexivity. Qed.

(** ** The classifier *)

Lemma classify_with_banned bans vips bad t :
  t ∈ bans → classify_with bans vips bad t = false.
Proof.
  intros Hin. unfold classify_with.
  by rewrite bool_decide_eq_true_2.
Qed.

Lemma classify_with_bad_suffix bans vips bad t :
  Str.endswith_any t bad = true → classify_with bans vips bad t = false.
Proof.
  intros Hsuf. unfold classify_with. rewrite Hsuf.
  destruct (bool_decide (t ∈ bans)); [done|].
  by destruct (bool_decide (t ∈ vips) || has_parens t).
Qed.

(** What one pass of either loop body does to a tag is [classify]. *)
Lemma classify_unfold t :
  classify t =
  if bool_decide (t ∈ SPECIFIC_BANS) then false
  else if bool_decide (t ∈ VIPS) || has_parens t
       then negb (Str.endswith_any t BAD_SUFFIXES) else false.
Proof. reflexivity. Qed.

(** ** The ranking loops as a bounded filter *)

Lemma waifu_loop_take items acc :
  (length acc < 10)%nat →
  waifu_loop items acc
  = acc ++ (take (10 - length acc) (List.filter qualifies items)).*1.
Proof.
  revert acc. induction items as [|[tag count] rest IH]; intros acc Hlen.
  - cbn. by rewrite take_nil, app_nil_r.
  - cbn [waifu_loop List.filter]. unfold qualifies at 1. cbn [fst].
    rewrite classify_unfold.
    destruct (bool_decide (tag ∈ SPECIFIC_BANS)); [by apply IH|].
    destruct (bool_decide (tag ∈ VIPS) || has_parens tag);
      [destruct (Str.endswith_any tag BAD_SUFFIXES)|]; cbn [negb].
    + rewrite (proj2 (Nat.eqb_neq _ _)) by lia. by apply IH.
    + rewrite length_app. cbn [length].
      destruct (Nat.eqb_spec (length acc + 1) 10) as [Heq|Hne].
      * replace (10 - length acc)%nat with 1%nat by lia.
        cbn. by rewrite take_0.
      * rewrite IH by (rewrite length_app; cbn; lia).
        rewrite length_app. cbn [length].
        replace (10 - length acc)%nat with (S (10 - (length acc + 1))) by lia.
        cbn. by rewrite <- app_assoc.
    + rewrite (proj2 (Nat.eqb_neq _ _)) by lia. by apply IH.
Qed.

Lemma driver_loop_take tag items acc :
  (length acc < 5)%nat →
  driver_loop tag items acc
  = acc ++ take (5 - length acc) (List.filter (drives tag) items).
Proof.
  revert acc. induction items as [|[t count] rest IH]; intros acc Hlen.
  - cbn. by rewrite take_nil, app_nil_r.
  - cbn [driver_loop List.filter]. unfold drives at 1. cbn [fst].
    rewrite classify_unfold.
    destruct (String.eqb t tag); [by apply IH|]. cbn [orb negb andb].
    destruct (bool_decide (t ∈ SPECIFIC_BANS)); [by apply IH|].
    destruct (bool_decide (t ∈ VIPS) || has_parens t);
      [destruct (Str.endswith_any t BAD_SUFFIXES)|]; cbn [negb].
    + rewrite (proj2 (Nat.eqb_neq _ _)) by lia. by apply IH.
    + rewrite length_app. cbn [length].
      destruct (Nat.eqb_spec (length acc + 1) 5) as [Heq|Hne].
      * replace (5 - length acc)%nat with 1%nat by lia.
        cbn. by rewrite take_0.
      * rewrite IH by (rewrite length_app; cbn; lia).
        rewrite length_app. cbn [length].
        replace (5 - length acc)%nat with (S (5 - (length acc + 1))) by lia.
        cbn. by rewrite <- app_assoc.
    + rewrite (proj2 (Nat.eqb_neq _ _)) by lia. by apply IH.
Qed.

Lemma top_chars_of_take counts :
  top_chars_of counts
  = (take 10 (List.filter qualifies (most_common 5000 counts))).*1.
Proof. unfold top_chars_of. by rewrite waifu_loop_take by (cbn; lia). Qed.

Lemma top_drivers_of_take tag counts :
  top_drivers_of tag counts
  = take 5 (List.filter (drives tag) (most_common 2000 counts)).
Proof. unfold top_drivers_of. by rewrite driver_loop_take by (cbn; lia). Qed.

(** ** Counter *)

Lemma count_of_incr t c t' :
  count_of (counter_incr t c) t'
  = (count_of c t' + if String.eqb t t' then 1 else 0)%nat.
Proof.
  induction c as [|[k n] c IH]; cbn.
  - by destruct (String.eqb t t').
  - destruct (String.eqb_spec k t) as [->|Hkt]; cbn.
    + destruct (String.eqb t t'); lia.
    + destruct (String.eqb_spec k t') as [->|Hkt'].
      * rewrite (proj2 (String.eqb_neq t t')) by congruence. lia.
      * apply IH.
Qed.

Lemma count_of_fold tokens c t :
  count_of (fold_left (λ c t, counter_incr t c) tokens c) t
  = (count_of c t + occurrences t tokens)%nat.
Proof.
  revert c. induction tokens as [|t0 tokens IH]; intros c; cbn.
  - unfold occurrences. cbn. lia.
  - rewrite IH, count_of_incr. unfold occurrences. cbn.
    rewrite (String.eqb_sym t t0). destruct (String.eqb t0 t); cbn; lia.
Qed.

Lemma count_of_Counter tokens t :
  count_of (Counter tokens) t = occurrences t tokens.
Proof. unfold Counter. by rewrite count_of_fold. Qed.

Lemma counter_incr_keys t c :
  (counter_incr t c).*1 = if decide (t ∈ c.*1) then c.*1 else c.*1 ++ [t].
Proof.
  induction c as [|[k n] c IH]; cbn.
  - rewrite decide_False; [done|]. by intros ?%elem_of_nil.
  - destruct (String.eqb_spec k t) as [->|Hkt]; cbn.
    + rewrite decide_True; [done|]. by left.
    + rewrite IH. destruct (decide (t ∈ c.*1)) as [Hin|Hnin].
      * rewrite decide_True; [done|]. by right.
      * rewrite decide_False; [done|].
        intros [?|?]%elem_of_cons; congruence.
Qed.

Lemma NoDup_counter_incr t c : NoDup c.*1 → NoDup (counter_incr t c).*1.
Proof.
  intros Hnd. rewrite counter_incr_keys.
  destruct (decide (t ∈ c.*1)) as [Hin|Hnin]; [done|].
  apply NoDup_app. split_and!; [done| |apply NoDup_singleton].
  intros x Hx ->%list_elem_of_singleton. done.
Qed.

Lemma NoDup_Counter tokens : NoDup (Counter tokens).*1.
Proof.
  unfold Counter.
  assert (∀ c, NoDup c.*1 →
    NoDup (fold_left (λ c t, counter_incr t c) tokens c).*1) as H.
  { induction tokens as [|t tokens IH]; intros c Hc; cbn; [done|].
    by apply IH, NoDup_counter_incr. }
  apply H. constructor.
Qed.

Lemma count_of_elem c t n : NoDup c.*1 → (t, n) ∈ c → count_of c t = n.
Proof.
  induction c as [|[k m] c IH]; cbn; intros Hnd Hin.
  - by apply elem_of_nil in Hin.
  - apply NoDup_cons in Hnd as [Hk Hnd].
    apply elem_of_cons in Hin as [Heq|Hin].
    + injection Heq as -> ->. by rewrite String.eqb_refl.
    + destruct (String.eqb_spec k t) as [->|Hkt]; [exfalso|by apply IH].
      apply Hk. apply list_elem_of_fmap. by exists (t, n).
Qed.

(** ** [most_common] *)

Lemma insert_desc_perm x l : insert_desc x l ≡ₚ x :: l.
Proof.
  induction l as [|y l IH]; cbn [insert_desc]; [done|].
  destruct (x.2 <? y.2)%nat; [|done].
  rewrite IH. apply Permutation_swap.
Qed.

Lemma sort_desc_perm c : sort_desc c ≡ₚ c.
Proof.
  induction c as [|x c IH]; cbn; [done|].
  by rewrite insert_desc_perm, IH.
Qed.

Lemma insert_desc_sorted x l :
  StronglySorted count_desc l → StronglySorted count_desc (insert_desc x l).
Proof.
  induction 1 as [|y l Hl IH Hy]; cbn [insert_desc].
  - repeat constructor.
  - destruct (Nat.ltb_spec x.2 y.2) as [Hlt|Hge].
    + constructor; [done|].
      rewrite insert_desc_perm. constructor; [unfold count_desc; lia|done].
    + constructor; [by constructor|].
      constructor; [done|].
      eapply Forall_impl; [exact Hy|]. unfold count_desc. intros; lia.
Qed.

Lemma sort_desc_sorted c : StronglySorted count_desc (sort_desc c).
Proof.
  induction c as [|x c IH]; cbn; [constructor|].
  by apply insert_desc_sorted.
Qed.

Lemma StronglySorted_sublist {A} (R : relation A) (l k : list A) :
  l `sublist_of` k → StronglySorted R k → StronglySorted R l.
Proof.
  induction 1 as [|x l k Hsub IH|x l k Hsub IH]; intros Hk.
  - constructor.
  - apply StronglySorted_inv in Hk as [Hk Hx]. constructor; [by apply IH|].
    apply Forall_forall. intros y Hy.
    eapply (proj1 (Forall_forall _ _) Hx). by eapply sublist_subseteq.
  - apply StronglySorted_inv in Hk as [Hk _]. by apply IH.
Qed.

Lemma sublist_bool_filter {A} (f : A → bool) (l : list A) :
  List.filter f l `sublist_of` l.
Proof.
  induction l as [|x l IH]; cbn; [constructor|].
  destruct (f x); by constructor.
Qed.

Lemma sublist_fmap_fst {A B} (l k : list (A * B)) :
  l `sublist_of` k → l.*1 `sublist_of` k.*1.
Proof. induction 1; cbn; by constructor. Qed.

Lemma most_common_sublist n c : most_common n c `sublist_of` sort_desc c.
Proof. apply sublist_take. Qed.

(** The first [k] items of the scanned pool that pass a test: taken from
    the Counter, keys distinct, counts non-increasing and exact. *)
Lemma ranked_prefix (f : string * nat → bool) k n tokens :
  let top := take k (List.filter f (most_common n (Counter tokens))) in
  (length top ≤ k)%nat ∧
  NoDup top.*1 ∧
  StronglySorted count_desc top ∧
  Forall (λ p, f p = true ∧ p.2 = occurrences p.1 tokens) top.
Proof.
  intros top.
  assert (top `sublist_of` sort_desc (Counter tokens)) as Hsub.
  { unfold top. etrans; [apply sublist_take|].
    etrans; [apply sublist_bool_filter|]. apply most_common_sublist. }
  split_and!.
  - unfold top. rewrite length_take. lia.
  - eapply sublist_NoDup; [|by apply sublist_fmap_fst].
    rewrite sort_desc_perm. apply NoDup_Counter.
  - eapply StronglySorted_sublist; [done|]. apply sort_desc_sorted.
  - apply Forall_forall. intros [t m] Hin. split.
    + assert ((t, m) ∈ List.filter f (most_common n (Counter tokens))) as H
        by (eapply sublist_subseteq; [apply sublist_take|exact Hin]).
      apply list_elem_of_In, filter_In in H. tauto.
    + cbn. rewrite <- count_of_Counter. symmetry.
      apply count_of_elem; [apply NoDup_Counter|].
      rewrite <- sort_desc_perm. by eapply sublist_subseteq.
Qed.

(** ** What the loops emit *)

Lemma emitted_char_classified counts t :
  t ∈ top_chars_of counts → classify t = true.
Proof.
  rewrite top_chars_of_take. intros ([t' n] & -> & Hin)%list_elem_of_fmap.
  apply (sublist_subseteq _ _ (sublist_take _ _)) in Hin.
  apply list_elem_of_In, filter_In in Hin. tauto.
Qed.

Lemma emitted_driver_classified tag counts t :
  t ∈ (top_drivers_of tag counts).*1 → classify t = true ∧ t ≠ tag.
Proof.
  rewrite top_drivers_of_take. intros ([t' n] & -> & Hin)%list_elem_of_fmap.
  apply (sublist_subseteq _ _ (sublist_take _ _)) in Hin.
  apply list_elem_of_In, filter_In in Hin as [_ Hd].
  unfold drives in Hd. cbn in *. apply andb_prop in Hd as [Hne Hc].
  split; [done|]. intros ->. by rewrite String.eqb_refl in Hne.
Qed.

Lemma rejected_never_emitted t :
  classify t = false →
  (∀ counts, t ∉ top_chars_of counts) ∧
  (∀ tag counts, t ∉ (top_drivers_of tag counts).*1).
Proof.
  intros Hc. split.
  - intros counts Hin%emitted_char_classified. congruence.
  - intros tag counts [Hin _]%emitted_driver_classified. congruence.
Qed.

Lemma sorted_by_occurrences tokens (l : counter) :
  StronglySorted count_desc l →
  Forall (λ p, p.2 = occurrences p.1 tokens) l →
  StronglySorted
    (λ a b, (occurrences b tokens ≤ occurrences a tokens)%nat) l.*1.
Proof.
  induction 1 as [|x l Hl IH Hx]; intros Hocc; cbn; [constructor|].
  apply Forall_cons in Hocc as [Hxo Hocc]. constructor; [by apply IH|].
  apply Forall_fmap, Forall_forall. intros y Hy. cbn.
  rewrite <- Hxo, <- (proj1 (Forall_forall _ _) Hocc y Hy).
  by apply (proj1 (Forall_forall _ _) Hx).
Qed.

(** ** Claims on the classifier and the extractor *)

(** C1: a tag of the exact denylist [SPECIFIC_BANS] is rejected by the
    classifier whatever the VIP allowlist and the banned suffixes are (the
    denylist test comes first), so it is rejected by [classify] and neither
    ranking loop ever emits it. *)
Theorem denylist_wins (t : string) :
  t ∈ SPECIFIC_BANS →
  (∀ vips bad, classify_with SPECIFIC_BANS vips bad t = false) ∧
  classify t = false ∧
  (∀ counts, t ∉ top_chars_of counts) ∧
  (∀ tag counts, t ∉ (top_drivers_of tag counts).*1).
Proof.
  intros Hin.
  assert (classify t = false) as Hc by by apply classify_with_banned.
  split_and!; [|done|by apply rejected_never_emitted..].
  intros vips bad. by apply classify_with_banned.
Qed.

Lemma denylist_wins_witness :
  "star_(symbol)" ∈ SPECIFIC_BANS ∧
  has_parens "star_(symbol)" = true ∧
  classify_with SPECIFIC_BANS {["star_(symbol)"]} [] "star_(symbol)" = false.
Proof.
  assert ("star_(symbol)" ∈ SPECIFIC_BANS) as Hin
    by (apply (bool_decide_unpack _); vm_compute; exact I).
  split_and!; [exact Hin|reflexivity|].
  apply (denylist_wins "star_(symbol)" Hin).
Defined.

(** C2: a tag outside the VIP allowlist that has the shape name_(qualifier)
    and ends with one of [BAD_SUFFIXES] is rejected by the classifier and
    never emitted as a top entity. *)
Theorem banned_suffix_rejected (t : string) :
  t ∉ VIPS →
  has_parens t = true →
  Str.endswith_any t BAD_SUFFIXES = true →
  classify t = false ∧
  (∀ counts, t ∉ top_chars_of counts) ∧
  (∀ tag counts, t ∉ (top_drivers_of tag counts).*1).
Proof.
  intros _ _ Hsuf.
  assert (classify t = false) as Hc by by apply classify_with_bad_suffix.
  split; [done|]. by apply rejected_never_emitted.
Qed.

Lemma banned_suffix_rejected_witness :
  ("touhou_(series)" ∉ VIPS) ∧
  has_parens "touhou_(series)" = true ∧
  Str.endswith_any "touhou_(series)" BAD_SUFFIXES = true ∧
  classify "touhou_(series)" = false.
Proof.
  assert ("touhou_(series)" ∉ VIPS) as Hnv
    by (apply (bool_decide_unpack _); vm_compute; exact I).
  split_and!; [exact Hnv|reflexivity|reflexivity|].
  apply (banned_suffix_rejected "touhou_(series)" Hnv); reflexivity.
Defined.

(** C3: from any frequency table, [get_top_waifus_by_year] extracts at most
    10 and [analyze_tag_driver] at most 5 entities; they are pairwise
    distinct, all pass the classifier, and come in non-increasing order of
    their occurrence counts.  The result is exactly the first 10 (resp. 5)
    qualifying items among the 5000 (resp. 2000) most common ones, hence
    all of them, without failure, when there are fewer. *)
Theorem top_entities_ranked (tokens : list string) (tag : string) :
  let counts := Counter tokens in
  let top_chars := top_chars_of counts in
  let top_drivers := top_drivers_of tag counts in
  ((length top_chars ≤ 10)%nat ∧
   NoDup top_chars ∧
   Forall (λ t, classify t = true) top_chars ∧
   StronglySorted
     (λ a b, (occurrences b tokens ≤ occurrences a tokens)%nat) top_chars ∧
   top_chars
   = (take 10 (List.filter qualifies (most_common 5000 counts))).*1) ∧
  ((length top_drivers ≤ 5)%nat ∧
   NoDup top_drivers.*1 ∧
   Forall (λ p, classify p.1 = true ∧ p.2 = occurrences p.1 tokens)
     top_drivers ∧
   StronglySorted count_desc top_drivers ∧
   top_drivers
   = take 5 (List.filter (drives tag) (most_common 2000 counts))).
Proof.
  intros counts top_chars top_drivers. split.
  - destruct (ranked_prefix qualifies 10 5000 tokens) as (Hlen & Hnd & Hs & Hf).
    unfold top_chars, counts. rewrite top_chars_of_take.
    split_and!; [by rewrite length_fmap|done| | |done].
    + apply Forall_fmap. eapply Forall_impl; [exact Hf|].
      intros p [Hq _]. exact Hq.
    + apply sorted_by_occurrences; [done|].
      eapply Forall_impl; [exact Hf|]. by intros p [_ Ho].
  - destruct (ranked_prefix (drives tag) 5 2000 tokens)
      as (Hlen & Hnd & Hs & Hf).
    unfold top_drivers, counts. rewrite top_drivers_of_take.
    split_and!; [done|done| |done|done].
    eapply Forall_impl; [exact Hf|].
    intros p [Hd Ho]. split; [|done].
    unfold drives in Hd. by apply andb_prop in Hd as [_ Hc].
Qed.

(** ** The year filter *)

(** The mask of lines 124-128 keeps the records of year [year] that carry
    the tag, except those made after midnight on December 31. *)
Lemma year_mask_spec year tag r :
  ts_wf (created_at r) →
  year_mask year tag r = true ↔
  ts_year (created_at r) = year ∧
  ¬ (ts_month (created_at r) = 12 ∧ ts_day (created_at r) = 31 ∧
     0 < ts_nanos (created_at r)) ∧
  str_contains tag r = true.
Proof.
  intros (Hm & Hd & Hn). unfold year_mask, ts_leb, start_date, end_date.
  cbn [ts_year ts_month ts_day ts_nanos].
  destruct (str_contains tag r); case_cmp; cbn; intuition (try lia; try done).
Qed.

(** C4, which asks that every record of the year carrying [1girl] be in
    the analysis subset, at a record of noon, December 31, 2016 tagged
    [1girl]: it lies in the year and carries the co-tag, yet the mask of
    [get_top_waifus_by_year] drops it, and on a frame holding only this
    record the tool reports that 2016 has no data. *)
Theorem new_years_eve_dropped :
  ts_wf (created_at new_years_eve_row) ∧
  ts_year (created_at new_years_eve_row) = 2016 ∧
  str_contains "1girl" new_years_eve_row = true ∧
  year_mask 2016 "1girl" new_years_eve_row = false ∧
  get_top_waifus_by_year [new_years_eve_row] 2016 = ([], NoDataForYear 2016).
Proof. unfold ts_wf. by vm_compute. Qed.

(** ** The unavailable dataset *)

(** C8: on the empty dataset each of the five tools returns the
    dataset-unavailable result at once, whatever its arguments, and saves
    no chart. *)
Theorem unavailable_dataset (charts_dir : string) (year : Z)
    (tag char1 char2 : string) :
  get_top_waifus_by_year [] year = ([], DatasetNotLoaded) ∧
  get_character_stats charts_dir [] tag = ([], DatasetNotLoaded) ∧
  calculate_ship_dependency [] char1 char2 = ([], DatasetNotLoaded) ∧
  analyze_tag_driver charts_dir [] year tag = ([], DatasetNotLoaded) ∧
  compare_characters charts_dir [] char1 char2 = ([], DatasetNotLoaded).
Proof. by split_and!. Qed.

(** ** Comparison *)

Lemma get_stats_total df tag :
  get_stats df tag
  = if (total_of df tag =? 0)%nat then None
    else Some (total_of df tag, resample_ME_size (loc (str_contains tag) df)).
Proof.
  unfold get_stats, total_of. by destruct (loc (str_contains tag) df).
Qed.

Lemma compare_characters_found charts_dir df char1 char2 :
  (0 < total_of df char1)%nat → (0 < total_of df char2)%nat →
  compare_characters charts_dir df char1 char2
  = let save_path :=
      get_safe_filename charts_dir (char1 +:+ "_vs_" +:+ char2) "compare" in
    ([save_path],
     Comparison char1 char2 (total_of df char1) (total_of df char2)
       (if (total_of df char2 <? total_of df char1)%nat then char1 else char2)
       save_path).
Proof.
  intros H1 H2. unfold compare_characters. rewrite !get_stats_total.
  destruct df as [|r df]; [cbn in H1; lia|]. cbn [empty].
  destruct (Nat.eqb_spec (total_of (r :: df) char1) 0); [lia|].
  destruct (Nat.eqb_spec (total_of (r :: df) char2) 0); [lia|]. done.
Qed.

(** C7: when both tags match some record, [compare_characters] reports the
    two totals and names as winner the tag with the strictly greater one
    (so 100 against 80 makes the first tag win); the winner's total is the
    larger of the two, never the strictly smaller. *)
Theorem compare_declares_greater (charts_dir : string) (df : DataFrame)
    (char1 char2 : string) :
  (0 < total_of df char1)%nat →
  (0 < total_of df char2)%nat →
  ∃ winner save_path,
    compare_characters charts_dir df char1 char2
    = ([save_path],
       Comparison char1 char2 (total_of df char1) (total_of df char2) winner
         save_path) ∧
    ((total_of df char2 < total_of df char1)%nat → winner = char1) ∧
    ((total_of df char1 < total_of df char2)%nat → winner = char2) ∧
    (total_of df char1 = 100%nat → total_of df char2 = 80%nat →
     winner = char1) ∧
    total_of df winner = Nat.max (total_of df char1) (total_of df char2).
Proof.
  intros H1 H2. rewrite compare_characters_found by done. cbn zeta.
  eexists _, _. split; [reflexivity|].
  destruct (Nat.ltb_spec (total_of df char2) (total_of df char1));
    split_and!; intros; try done; lia.
Qed.

Lemma compare_declares_greater_witness :
  (0 < total_of duel_df "x_(one)")%nat ∧
  (0 < total_of duel_df "y_(two)")%nat ∧
  ∃ winner save_path,
    compare_characters "/srv/charts" duel_df "x_(one)" "y_(two)"
    = ([save_path],
       Comparison "x_(one)" "y_(two)" (total_of duel_df "x_(one)")
         (total_of duel_df "y_(two)") winner save_path) ∧
    ((total_of duel_df "y_(two)" < total_of duel_df "x_(one)")%nat →
     winner = "x_(one)") ∧
    ((total_of duel_df "x_(one)" < total_of duel_df "y_(two)")%nat →
     winner = "y_(two)") ∧
    (total_of duel_df "x_(one)" = 100%nat →
     total_of duel_df "y_(two)" = 80%nat → winner = "x_(one)") ∧
    total_of duel_df winner
    = Nat.max (total_of duel_df "x_(one)") (total_of duel_df "y_(two)").
Proof.
  assert (total_of duel_df "x_(one)" = 100%nat) as H1 by (vm_compute; reflexivity).
  assert (total_of duel_df "y_(two)" = 80%nat) as H2 by (vm_compute; reflexivity).
  split; [rewrite H1; lia|]. split; [rewrite H2; lia|].
  apply (compare_declares_greater "/srv/charts" duel_df "x_(one)" "y_(two)").
  - rewrite H1. lia.
  - rewrite H2. lia.
Defined.

(** C9: when both tags match some record and their totals are equal,
    [compare_characters] names the second argument as winner. *)
Theorem compare_tie_second (charts_dir : string) (df : DataFrame)
    (char1 char2 : string) :
  (0 < total_of df char1)%nat →
  (0 < total_of df char2)%nat →
  total_of df char1 = total_of df char2 →
  compare_characters charts_dir df char1 char2
  = let save_path :=
      get_safe_filename charts_dir (char1 +:+ "_vs_" +:+ char2) "compare" in
    ([save_path],
     Comparison char1 char2 (total_of df char1) (total_of df char2) char2
       save_path).
Proof.
  intros H1 H2 Heq. rewrite compare_characters_found by done.
  by rewrite Heq, Nat.ltb_irrefl.
Qed.

Lemma compare_tie_second_witness :
  total_of tie_df "x_(one)" = total_of tie_df "y_(two)" ∧
  compare_characters "/srv/charts" tie_df "x_(one)" "y_(two)"
  = (["/srv/charts/compare_x_(one)_vs_y_(two).png"],
     Comparison "x_(one)" "y_(two)" 3 3 "y_(two)"
       "/srv/charts/compare_x_(one)_vs_y_(two).png").
Proof.
  split; [reflexivity|].
  rewrite (compare_tie_second "/srv/charts" tie_df "x_(one)" "y_(two)");
    [reflexivity|vm_compute; lia|vm_compute; lia|reflexivity].
Defined.

(** ** Index sets of masks *)

Lemma loc_index_ge mask start df i :
  i ∈ loc_index mask start df → (start ≤ i)%nat.
Proof.
  revert start. induction df as [|r df IH]; intros start; cbn.
  - by intros ?%elem_of_nil.
  - intros [Hi|Hi]%elem_of_app.
    + destruct (mask r); [|by apply elem_of_nil in Hi].
      apply list_elem_of_singleton in Hi. lia.
    + apply IH in Hi. lia.
Qed.

Lemma NoDup_loc_index mask start df : NoDup (loc_index mask start df).
Proof.
  revert start. induction df as [|r df IH]; intros start; cbn; [constructor|].
  apply NoDup_app. split_and!; [|intros i Hi Hi'|apply IH].
  - destruct (mask r); [apply NoDup_singleton|constructor].
  - destruct (mask r); [|by apply elem_of_nil in Hi].
    apply list_elem_of_singleton in Hi. apply loc_index_ge in Hi'. lia.
Qed.

Lemma length_loc_index mask start df :
  length (loc_index mask start df) = length (loc mask df).
Proof.
  revert start. induction df as [|r df IH]; intros start; cbn; [done|].
  rewrite length_app, IH. unfold loc. by destruct (mask r).
Qed.

Lemma loc_index_and m1 m2 start df i :
  i ∈ loc_index (λ r, m1 r && m2 r) start df ↔
  i ∈ loc_index m1 start df ∧ i ∈ loc_index m2 start df.
Proof.
  revert start. induction df as [|r df IH]; intros start; cbn.
  - rewrite elem_of_nil. tauto.
  - rewrite !elem_of_app, IH. split.
    + intros [Hi|[H1 H2]]; [|by auto].
      destruct (m1 r), (m2 r); cbn in Hi;
        try (by apply elem_of_nil in Hi); by auto.
    + intros [[H1|H1] [H2|H2]]; [| | |by auto].
      * left. by destruct (m1 r), (m2 r).
      * destruct (m1 r); [|by apply elem_of_nil in H1].
        apply list_elem_of_singleton in H1. apply loc_index_ge in H2. lia.
      * destruct (m2 r); [|by apply elem_of_nil in H2].
        apply list_elem_of_singleton in H2. apply loc_index_ge in H1. lia.
Qed.

Lemma size_index_set mask df :
  size (list_to_set (loc_index mask 0 df) : gset nat) = length (loc mask df).
Proof.
  rewrite size_list_to_set by apply NoDup_loc_index. apply length_loc_index.
Qed.

Lemma index_set_inter m1 m2 df :
  (list_to_set (loc_index m1 0 df) : gset nat)
  ∩ list_to_set (loc_index m2 0 df)
  = list_to_set (loc_index (λ r, m1 r && m2 r) 0 df).
Proof.
  apply set_eq. intros i.
  rewrite elem_of_intersection, !elem_of_list_to_set, loc_index_and. tauto.
Qed.

Lemma size_zero_empty (X : gset nat) : size X = 0%nat ↔ X = ∅.
Proof. rewrite size_empty_iff. apply leibniz_equiv_iff. Qed.

Lemma index_set_empty mask df :
  (list_to_set (loc_index mask 0 df) : gset nat) = ∅ ↔ loc mask df = [].
Proof.
  rewrite <- size_zero_empty, size_index_set. apply length_zero_iff_nil.
Qed.

(** ** Co-occurrence *)

Lemma calculate_ship_dependency_loaded df char1 char2 :
  df ≠ [] →
  let set1 : gset nat := list_to_set (loc_index (str_contains char1) 0 df) in
  let set2 : gset nat := list_to_set (loc_index (str_contains char2) 0 df) in
  calculate_ship_dependency df char1 char2
  = if bool_decide (set1 = ∅) then ([], CharacterNotFound char1)
    else ([], ShipAnalysis char1 char2
                (PrimFloat.mul (true_div (size (set1 ∩ set2)) (size set1)) 100)
                (size set1) (size (set1 ∩ set2))).
Proof. intros Hdf. unfold calculate_ship_dependency. by destruct df. Qed.

(** C5: [calculate_ship_dependency] answers that the first character is
    not found exactly when no record matches it (on a loaded dataset; the
    empty one is answered by the guard of line 217).  Otherwise it reports
    the size of the intersection of the two index sets, and that size
    divided by the size of the first set, times 100.  The sizes are the
    numbers of matching records, and 40 joint records out of 100 give 40.0
    and 40. *)
Theorem ship_dependency_spec (df : DataFrame) (char1 char2 : string) :
  let set1 : gset nat := list_to_set (loc_index (str_contains char1) 0 df) in
  let set2 : gset nat := list_to_set (loc_index (str_contains char2) 0 df) in
  let base := loc (str_contains char1) df in
  let joint := loc (λ r, str_contains char1 r && str_contains char2 r) df in
  size set1 = length base ∧
  size (set1 ∩ set2) = length joint ∧
  (df ≠ [] →
   (calculate_ship_dependency df char1 char2 = ([], CharacterNotFound char1)
    ↔ set1 = ∅)) ∧
  (set1 ≠ ∅ →
   calculate_ship_dependency df char1 char2
   = ([], ShipAnalysis char1 char2
            (PrimFloat.mul (true_div (size (set1 ∩ set2)) (size set1)) 100)
            (size set1) (size (set1 ∩ set2)))) ∧
  (length base = 100%nat → length joint = 40%nat →
   calculate_ship_dependency df char1 char2
   = ([], ShipAnalysis char1 char2 40 100 40)).
Proof.
  intros set1 set2 base joint.
  assert (size set1 = length base) as Hs1 by apply size_index_set.
  assert (size (set1 ∩ set2) = length joint) as Hs12.
  { unfold set1, set2. rewrite index_set_inter. apply size_index_set. }
  assert (set1 ≠ ∅ → df ≠ []) as Hloaded.
  { intros Hne ->. by apply Hne. }
  assert (set1 ≠ ∅ →
    calculate_ship_dependency df char1 char2
    = ([], ShipAnalysis char1 char2
             (PrimFloat.mul (true_div (size (set1 ∩ set2)) (size set1)) 100)
             (size set1) (size (set1 ∩ set2)))) as Hfound.
  { intros Hne.
    rewrite calculate_ship_dependency_loaded by auto. cbn zeta.
    by rewrite bool_decide_eq_false_2. }
  split_and!; [done|done| |done|].
  - intros Hdf. rewrite calculate_ship_dependency_loaded by done. cbn zeta.
    fold set1 set2. case_bool_decide; [done|]. split; [discriminate|done].
  - intros Hb Hj. rewrite Hfound.
    + rewrite Hs12, Hs1, Hb, Hj. by vm_compute.
    + intros He%size_zero_empty. rewrite Hs1, Hb in He. discriminate.
Qed.

Lemma ship_dependency_spec_witness :
  ship_df ≠ [] ∧
  length (loc (str_contains "a") ship_df) = 100%nat ∧
  length (loc (λ r, str_contains "a" r && str_contains "b" r) ship_df)
  = 40%nat ∧
  calculate_ship_dependency ship_df "a" "b"
  = ([], ShipAnalysis "a" "b" 40 100 40) ∧
  (calculate_ship_dependency ship_df "zz" "b" = ([], CharacterNotFound "zz")
   ↔ (list_to_set (loc_index (str_contains "zz") 0 ship_df) : gset nat) = ∅).
Proof.
  assert (ship_df ≠ []) as Hdf by discriminate.
  split_and!; [exact Hdf|reflexivity|reflexivity| |].
  - apply (ship_dependency_spec ship_df "a" "b"); reflexivity.
  - apply (ship_dependency_spec ship_df "zz" "b"). exact Hdf.
Defined.

(** ** Monthly buckets *)

Lemma month_bounds subset d r :
  r ∈ subset →
  min_month subset d <= month_of (created_at r) <= max_month subset d.
Proof.
  unfold min_month, max_month.
  induction subset as [|r' subset IH]; cbn [foldr].
  - by intros ?%elem_of_nil.
  - intros [->|Hin]%elem_of_cons; [lia|]. apply IH in Hin. lia.
Qed.

Lemma month_bounds_default subset d :
  min_month subset d <= d <= max_month subset d.
Proof.
  unfold min_month, max_month.
  induction subset as [|r subset IH]; cbn [foldr]; lia.
Qed.

Lemma sum_list_fmap_add (f g : Z → nat) (l : list Z) :
  sum_list ((λ p, (f p + g p)%nat) <$> l)
  = (sum_list (f <$> l) + sum_list (g <$> l))%nat.
Proof. induction l as [|p l IH]; cbn; [done|]. rewrite IH. lia. Qed.

Lemma sum_in_month_absent r (l : list Z) :
  month_of (created_at r) ∉ l → sum_list (in_month r <$> l) = 0%nat.
Proof.
  induction l as [|p l IH]; cbn; [done|].
  intros Hnin. apply not_elem_of_cons in Hnin as [Hne Hnin].
  rewrite IH by done. unfold in_month.
  by destruct (Z.eqb_spec (month_of (created_at r)) p).
Qed.

Lemma sum_in_month_present r (l : list Z) :
  NoDup l → month_of (created_at r) ∈ l →
  sum_list (in_month r <$> l) = 1%nat.
Proof.
  induction 1 as [|p l Hp Hnd IH]; cbn.
  - by intros ?%elem_of_nil.
  - unfold in_month at 1.
    destruct (Z.eqb_spec (month_of (created_at r)) p) as [Heq|Hne].
    + intros _. rewrite sum_in_month_absent; [done|]. by rewrite Heq.
    + intros [?|Hin]%elem_of_cons; [done|]. by rewrite IH.
Qed.

Lemma count_in_month_cons r subset p :
  count_in_month (r :: subset) p
  = (in_month r p + count_in_month subset p)%nat.
Proof.
  unfold count_in_month, in_month. cbn.
  by destruct (month_of (created_at r) =? p).
Qed.

Lemma sum_count_in_month subset (l : list Z) :
  NoDup l →
  (∀ r, r ∈ subset → month_of (created_at r) ∈ l) →
  sum_list (count_in_month subset <$> l) = length subset.
Proof.
  intros Hnd. induction subset as [|r subset IH]; intros Hall.
  - clear. induction l as [|p l IH]; cbn; [done|]. by rewrite IH.
  - rewrite (list_fmap_ext (count_in_month (r :: subset))
               (λ p, (in_month r p + count_in_month subset p)%nat) l)
      by (intros; apply count_in_month_cons).
    rewrite sum_list_fmap_add, IH, sum_in_month_present; [done|done| |].
    + apply Hall. by left.
    + intros r' Hr'. apply Hall. by right.
Qed.

Lemma seqZ_lt_sorted m n : StronglySorted Z.lt (seqZ m n).
Proof.
  remember (Z.to_nat n) as k eqn:Hk. revert m n Hk.
  induction k as [|k IH]; intros m n Hk.
  - rewrite seqZ_nil by lia. constructor.
  - rewrite seqZ_cons by lia. constructor; [apply IH; lia|].
    apply Forall_seqZ. intros; lia.
Qed.

Lemma StronglySorted_fmap_mono {A B} (R : relation A) (R' : relation B)
    (f : A → B) (l : list A) :
  (∀ x y, R x y → R' (f x) (f y)) →
  StronglySorted R l → StronglySorted R' (f <$> l).
Proof.
  intros Hmono. induction 1 as [|x l Hl IH Hx]; cbn; constructor; [done|].
  apply Forall_fmap. eapply Forall_impl; [exact Hx|]. intros y. apply Hmono.
Qed.

Lemma StronglySorted_irrefl_NoDup {A} (R : relation A) (l : list A) :
  (∀ x, ¬ R x x) → StronglySorted R l → NoDup l.
Proof.
  intros Hirr. induction 1 as [|x l Hl IH Hx]; constructor; [|done].
  intros Hin. apply (Hirr x). by apply (proj1 (Forall_forall _ _) Hx).
Qed.

Lemma ts_ltb_irrefl t : ts_ltb t t ≠ true.
Proof. unfold ts_ltb, ts_leb. case_cmp; cbn; try done; lia. Qed.

(** Later months have later month-end labels. *)
Lemma month_end_lt p q : p < q → ts_ltb (month_end p) (month_end q) = true.
Proof.
  intros Hpq. unfold ts_ltb, ts_leb, month_end.
  cbn [ts_year ts_month ts_day ts_nanos].
  pose proof (Z.div_mod p 12 ltac:(lia)).
  pose proof (Z.div_mod q 12 ltac:(lia)).
  pose proof (Z.mod_pos_bound p 12 ltac:(lia)).
  pose proof (Z.mod_pos_bound q 12 ltac:(lia)).
  repeat match goal with
  | |- context [(?a <? ?b)%Z] => destruct (Z.ltb_spec a b)
  end; cbn; try done; exfalso; lia.
Qed.

Lemma resample_ME_size_eq r subset :
  let p0 := month_of (created_at r) in
  let lo := min_month (r :: subset) p0 in
  let hi := max_month (r :: subset) p0 in
  resample_ME_size (r :: subset)
  = (λ p, (p, count_in_month (r :: subset) p)) <$> seqZ lo (hi - lo + 1).
Proof. reflexivity. Qed.

(** C6: on a non-empty subset the monthly series is non-empty, its
    periods (month numbers, and the month-end labels pandas gives them)
    are strictly ascending and without duplicates, and its counts add up
    to the number of records of the subset. *)
Theorem monthly_buckets (subset : DataFrame) :
  subset ≠ [] →
  let monthly := resample_ME_size subset in
  monthly ≠ [] ∧
  StronglySorted Z.lt monthly.*1 ∧
  StronglySorted (λ a b, ts_ltb a b = true) (month_end <$> monthly.*1) ∧
  NoDup monthly.*1 ∧
  NoDup (month_end <$> monthly.*1) ∧
  series_total monthly = length subset.
Proof.
  destruct subset as [|r subset]; [done|]. intros _ monthly.
  unfold monthly. rewrite resample_ME_size_eq. cbn zeta.
  set (p0 := month_of (created_at r)).
  set (lo := min_month (r :: subset) p0).
  set (hi := max_month (r :: subset) p0).
  pose proof (month_bounds_default (r :: subset) p0) as Hd. fold lo hi in Hd.
  assert (((λ p, (p, count_in_month (r :: subset) p)) <$> seqZ lo (hi - lo + 1)).*1
          = seqZ lo (hi - lo + 1)) as Hfst.
  { rewrite <- list_fmap_compose. apply list_fmap_id. }
  assert (StronglySorted (λ a b, ts_ltb a b = true)
            (month_end <$> seqZ lo (hi - lo + 1))) as Hlab.
  { eapply StronglySorted_fmap_mono; [apply month_end_lt|apply seqZ_lt_sorted]. }
  rewrite Hfst. split_and!.
  - rewrite seqZ_cons by lia. done.
  - apply seqZ_lt_sorted.
  - done.
  - apply NoDup_seqZ.
  - eapply StronglySorted_irrefl_NoDup; [|exact Hlab]. apply ts_ltb_irrefl.
  - unfold series_total. rewrite <- list_fmap_compose.
    apply (sum_count_in_month (r :: subset)); [apply NoDup_seqZ|].
    intros r' Hr'. apply elem_of_seqZ.
    pose proof (month_bounds (r :: subset) p0 r' Hr'). fold lo hi in H. lia.
Qed.

Lemma monthly_buckets_witness :
  demo_df ≠ [] ∧
  resample_ME_size demo_df
  = [(24194, 5%nat); (24195, 0%nat); (24196, 0%nat); (24197, 4%nat)] ∧
  series_total (resample_ME_size demo_df) = length demo_df.
Proof.
  assert (demo_df ≠ []) as Hne by discriminate.
  split_and!; [exact Hne|reflexivity|].
  apply (monthly_buckets demo_df Hne).
Defined.

(** ** Tags of any length *)

Lemma contains_empty s : Str.contains "" s = true.
Proof. by destruct s. Qed.

Lemma str_contains_empty r : str_contains "" r = has_tags r.
Proof.
  unfold str_contains, has_tags.
  destruct (tag_string r); [apply contains_empty|done].
Qed.

Lemma loc_all_true (mask : Row → bool) (df : DataFrame) :
  Forall (λ r, mask r = true) df → loc mask df = df.
Proof.
  unfold loc. induction 1 as [|r df Hr _ IH]; cbn; [done|].
  by rewrite Hr, IH.
Qed.

Lemma get_character_stats_found charts_dir df tag :
  total_of df tag ≠ 0%nat →
  ∃ peak_date peak_count still_active,
    get_character_stats charts_dir df tag
    = ([get_safe_filename charts_dir tag "popularity"],
       CharacterStats tag (total_of df tag) peak_date peak_count still_active
         (get_safe_filename charts_dir tag "popularity")).
Proof.
  unfold total_of, get_character_stats. intros Hne.
  destruct df as [|r df]; [done|]. cbn [empty].
  destruct (loc (str_contains tag) (r :: df)) as [|r' subset] eqn:Hloc;
    [done|].
  cbn [empty]. by eexists _, _, _.
Qed.

Lemma calculate_ship_dependency_found df char1 char2 :
  total_of df char1 ≠ 0%nat →
  ∃ percentage joint,
    calculate_ship_dependency df char1 char2
    = ([], ShipAnalysis char1 char2 percentage (total_of df char1) joint).
Proof.
  unfold total_of. intros Hne.
  assert (df ≠ []) as Hdf by (by intros ->).
  rewrite calculate_ship_dependency_loaded by done. cbn zeta.
  rewrite bool_decide_eq_false_2.
  - rewrite size_index_set. by eexists _, _.
  - intros He%index_set_empty. by rewrite He in Hne.
Qed.

Lemma get_character_stats_no_input_error charts_dir df tag :
  is_input_error (get_character_stats charts_dir df tag).2 = false.
Proof.
  unfold get_character_stats. destruct df as [|r df]; [done|]. cbn [empty].
  by destruct (loc (str_contains tag) (r :: df)).
Qed.

Lemma calculate_ship_dependency_no_input_error df char1 char2 :
  is_input_error (calculate_ship_dependency df char1 char2).2 = false.
Proof.
  unfold calculate_ship_dependency. destruct df as [|r df]; [done|].
  cbn [empty]. by case_bool_decide.
Qed.

Lemma compare_characters_no_input_error charts_dir df char1 char2 :
  is_input_error (compare_characters charts_dir df char1 char2).2 = false.
Proof.
  unfold compare_characters. destruct df as [|r df]; [done|]. cbn [empty].
  destruct (get_stats (r :: df) char1) as [[total1 ?]|]; [|done].
  by destruct (get_stats (r :: df) char2) as [[total2 ?]|].
Qed.

(** C10: [get_character_stats], [calculate_ship_dependency] and
    [compare_characters] never answer with an input error, whatever the
    length of the tag: a tag that matches some record is reported with the
    number of records containing it as a substring.  The empty tag matches
    exactly the records whose tag string is present, so
    [get_character_stats] on it reports their number, which is the size of
    the whole dataset when no tag string is missing. *)
Theorem short_tags_not_validated (charts_dir : string) (df : DataFrame)
    (tag char1 char2 : string) :
  is_input_error (get_character_stats charts_dir df tag).2 = false ∧
  is_input_error (calculate_ship_dependency df char1 char2).2 = false ∧
  is_input_error (compare_characters charts_dir df char1 char2).2 = false ∧
  (total_of df tag ≠ 0%nat →
   ∃ peak_date peak_count still_active,
     get_character_stats charts_dir df tag
     = ([get_safe_filename charts_dir tag "popularity"],
        CharacterStats tag (total_of df tag) peak_date peak_count
          still_active (get_safe_filename charts_dir tag "popularity"))) ∧
  (total_of df char1 ≠ 0%nat →
   ∃ percentage joint,
     calculate_ship_dependency df char1 char2
     = ([], ShipAnalysis char1 char2 percentage (total_of df char1) joint)) ∧
  (total_of df char1 ≠ 0%nat → total_of df char2 ≠ 0%nat →
   ∃ winner save_path,
     compare_characters charts_dir df char1 char2
     = ([save_path],
        Comparison char1 char2 (total_of df char1) (total_of df char2)
          winner save_path)) ∧
  loc (str_contains "") df = loc has_tags df ∧
  (loc has_tags df ≠ [] →
   ∃ peak_date peak_count still_active,
     get_character_stats charts_dir df ""
     = ([get_safe_filename charts_dir "" "popularity"],
        CharacterStats "" (length (loc has_tags df)) peak_date peak_count
          still_active (get_safe_filename charts_dir "" "popularity"))) ∧
  (Forall (λ r, has_tags r = true) df → total_of df "" = length df).
Proof.
  assert (loc (str_contains "") df = loc has_tags df) as Hloc.
  { unfold loc. apply List.filter_ext. apply str_contains_empty. }
  split_and!.
  - apply get_character_stats_no_input_error.
  - apply calculate_ship_dependency_no_input_error.
  - apply compare_characters_no_input_error.
  - apply get_character_stats_found.
  - apply calculate_ship_dependency_found.
  - intros H1 H2. rewrite compare_characters_found by lia. cbn zeta.
    by eexists _, _.
  - done.
  - intros Hne.
    destruct (get_character_stats_found charts_dir df "")
      as (pd & pc & sa & Hrun).
    + unfold total_of. rewrite Hloc. by destruct (loc has_tags df).
    + exists pd, pc, sa. rewrite Hrun. unfold total_of. by rewrite Hloc.
  - intros Hall. unfold total_of. rewrite Hloc. by rewrite loc_all_true.
Qed.

Lemma short_tags_not_validated_witness :
  total_of ship_df "a" ≠ 0%nat ∧
  loc has_tags ship_df ≠ [] ∧
  length (loc has_tags ship_df) = 107%nat ∧
  (∃ peak_date peak_count still_active,
     get_character_stats "/srv/charts" ship_df "a"
     = (["/srv/charts/popularity_a.png"],
        CharacterStats "a" (total_of ship_df "a") peak_date peak_count
          still_active "/srv/charts/popularity_a.png")) ∧
  (∃ peak_date peak_count still_active,
     get_character_stats "/srv/charts" ship_df ""
     = (["/srv/charts/popularity_.png"],
        CharacterStats "" (length (loc has_tags ship_df)) peak_date peak_count
          still_active "/srv/charts/popularity_.png")).
Proof.
  assert (total_of ship_df "a" ≠ 0%nat) as Ha by (vm_compute; discriminate).
  assert (loc has_tags ship_df ≠ []) as Hne by (vm_compute; discriminate).
  pose proof (short_tags_not_validated "/srv/charts" ship_df "a" "a" "b")
    as (_ & _ & _ & Hfound & _ & _ & _ & Hempty & _).
  split_and!; [exact Ha|exact Hne|reflexivity|exact (Hfound Ha)|exact (Hempty Hne)].
Defined.

(** * Further properties of the server *)

(** ** Strings *)

Lemma append_cons a s t : String a s +:+ t = String a (s +:+ t).
Proof. reflexivity. Qed.

Lemma append_empty_r s : s +:+ "" = s.
Proof. induction s as [|a s IH]; [done|]. by rewrite append_cons, IH. Qed.

Lemma append_assoc s t u : (s +:+ t) +:+ u = s +:+ t +:+ u.
Proof. induction s as [|a s IH]; [done|]. by rewrite !append_cons, IH. Qed.

Lemma chars_append s t : chars (s +:+ t) = chars s ++ chars t.
Proof.
  induction s as [|a s IH]; [done|].
  rewrite append_cons. unfold chars in *. cbn. by rewrite IH.
Qed.

Lemma chars_inj s t : chars s = chars t → s = t.
Proof.
  intros H. rewrite <- (string_of_list_ascii_of_string s),
    <- (string_of_list_ascii_of_string t). unfold chars in H. by rewrite H.
Qed.

Lemma prefix_iff p s : String.prefix p s = true ↔ ∃ b, s = p +:+ b.
Proof.
  revert s. induction p as [|a p IH]; intros [|c s]; cbn.
  - split; [by exists ""|done].
  - split; [by exists (String c s)|done].
  - split; [done|by intros [b ?]].
  - destruct (ascii_dec a c) as [->|Hne].
    + rewrite IH. split; intros [b Hb]; exists b.
      * by rewrite append_cons, Hb.
      * rewrite append_cons in Hb. by injection Hb.
    + split; [done|]. intros [b Hb]. rewrite append_cons in Hb.
      injection Hb as ? ?. congruence.
Qed.

(** [pat in s] holds exactly when [s] is [a + pat + b] for some [a], [b]. *)
Lemma contains_iff pat s :
  Str.contains pat s = true ↔ ∃ a b, s = a +:+ pat +:+ b.
Proof.
  induction s as [|c s IH]; cbn [Str.contains].
  - rewrite orb_false_r, prefix_iff. split.
    + intros [b Hb]. by exists "", b.
    + intros (a & b & Hab). destruct a as [|??]; [by exists b|done].
  - rewrite orb_true_iff, prefix_iff, IH. split.
    + intros [[b Hb]|(a & b & Hab)]; [by exists "", b|].
      exists (String c a), b. by rewrite append_cons, Hab.
    + intros (a & b & Hab). destruct a as [|c' a]; [left; by exists b|].
      right. rewrite append_cons in Hab. injection Hab as -> ->.
      by exists a, b.
Qed.

(** [s.endswith(suf)] holds exactly when [s] is [a + suf] for some [a]. *)
Lemma endswith_iff s suf : Str.endswith s suf = true ↔ ∃ a, s = a +:+ suf.
Proof.
  induction s as [|c s IH]; cbn [Str.endswith].
  - destruct (String.eqb_spec "" suf) as [<-|Hne].
    + split; [by exists ""|done].
    + split; [done|]. intros [a Ha]. destruct a; [done|done].
  - destruct (String.eqb_spec (String c s) suf) as [<-|Hne].
    + split; [by exists ""|done].
    + rewrite IH. split.
      * intros [a ->]. by exists (String c a).
      * intros [a Ha]. destruct a as [|c' a]; [done|].
        rewrite append_cons in Ha. injection Ha as -> ->. by exists a.
Qed.

Lemma contains_trans a b s :
  Str.contains a b = true → Str.contains b s = true →
  Str.contains a s = true.
Proof.
  rewrite !contains_iff. intros (x & y & ->) (u & v & ->).
  exists (u +:+ x), (y +:+ v). by rewrite !append_assoc.
Qed.

(** ** Chart file names *)

Lemma chars_replace_char a b s :
  chars (Str.replace_char a b s)
  = (λ c, if Ascii.eqb c a then b else c) <$> chars s.
Proof.
  induction s as [|c s IH]; [done|].
  unfold chars in *. cbn [Str.replace_char list_ascii_of_string fmap list_fmap].
  by rewrite IH.
Qed.

Lemma chars_safe_tag q :
  chars (safe_tag q)
  = (λ c, if Ascii.eqb c ":" then "_"
          else if Ascii.eqb c "/" then "_"
          else if Ascii.eqb c " " then "_" else c)%char <$> chars q.
Proof.
  unfold safe_tag. rewrite !chars_replace_char, <- !list_fmap_compose.
  apply list_fmap_ext. intros _ c _. cbn.
  destruct (Ascii.eqb_spec c ":") as [->|?]; [done|].
  by destruct (Ascii.eqb_spec c "/") as [->|?].
Qed.

Lemma get_safe_filename_eq charts_dir q prefix :
  get_safe_filename charts_dir q prefix
  = path_join charts_dir (prefix +:+ "_" +:+ safe_tag q +:+ ".png").
Proof. reflexivity. Qed.

(** The chart of a query is a file directly inside [charts_dir]: whatever
    the tag, the sanitised tag has the tag's length and holds no colon,
    slash or space, and the file name holds no slash when the prefix holds
    none (as the prefixes passed at lines 189, 295 and 348). *)
Theorem get_safe_filename_flat (charts_dir query_str prefix : string) :
  ("/"%char ∉ chars prefix) →
  let name := prefix +:+ "_" +:+ safe_tag query_str +:+ ".png" in
  (get_safe_filename charts_dir query_str prefix = charts_dir +:+ name ∨
   get_safe_filename charts_dir query_str prefix
   = charts_dir +:+ "/" +:+ name) ∧
  ("/"%char ∉ chars name) ∧
  length (chars (safe_tag query_str)) = length (chars query_str) ∧
  Forall (λ c, c ≠ ":" ∧ c ≠ "/" ∧ c ≠ " ")%char (chars (safe_tag query_str)).
Proof.
  intros Hprefix name.
  assert (Forall (λ c, c ≠ ":" ∧ c ≠ "/" ∧ c ≠ " ")%char
            (chars (safe_tag query_str))) as Hsafe.
  { rewrite chars_safe_tag. apply Forall_fmap, Forall_forall. intros c _. cbn.
    destruct (Ascii.eqb_spec c ":"); [done|].
    destruct (Ascii.eqb_spec c "/"); [done|].
    by destruct (Ascii.eqb_spec c " "). }
  assert ("/"%char ∉ chars name) as Hname.
  { unfold name. rewrite !chars_append, !elem_of_app.
    intros [?|[Hin|[Hin|Hin]]]; [done| | |].
    - apply list_elem_of_singleton in Hin. discriminate.
    - apply (proj1 (Forall_forall _ _) Hsafe) in Hin. tauto.
    - unfold chars in Hin. cbn in Hin.
      repeat (apply elem_of_cons in Hin as [?|Hin]; [discriminate|]).
      by apply elem_of_nil in Hin. }
  split_and!; [|done| |done].
  - rewrite get_safe_filename_eq. fold name. unfold path_join.
    destruct (String.prefix "/" name) eqn:Hpre.
    + apply prefix_iff in Hpre as [b Hb]. exfalso. apply Hname.
      rewrite Hb, chars_append. apply elem_of_app. left. by left.
    + destruct (String.eqb charts_dir "" || Str.endswith charts_dir "/");
        [by left|by right].
  - by rewrite chars_safe_tag, length_fmap.
Qed.

Lemma get_safe_filename_flat_witness :
  ("/"%char ∉ chars "popularity") ∧
  (get_safe_filename "/srv/charts" "gudako_(fate/grand order)" "popularity"
   = "/srv/charts" +:+ "popularity_gudako_(fate_grand_order).png" ∨
   get_safe_filename "/srv/charts" "gudako_(fate/grand order)" "popularity"
   = "/srv/charts" +:+ "/" +:+ "popularity_gudako_(fate_grand_order).png").
Proof.
  assert ("/"%char ∉ chars "popularity") as Hp.
  { apply (bool_decide_unpack _). vm_compute. exact I. }
  split; [exact Hp|].
  apply (get_safe_filename_flat "/srv/charts" "gudako_(fate/grand order)"
           "popularity" Hp).
Defined.

Lemma safe_tag_replaced c q :
  c = ":"%char ∨ c = "/"%char ∨ c = " "%char →
  safe_tag (Str.replace_char c "_" q) = safe_tag q.
Proof.
  intros Hc. apply chars_inj.
  rewrite !chars_safe_tag, chars_replace_char, <- list_fmap_compose.
  apply list_fmap_ext. intros _ x _. cbn.
  destruct (Ascii.eqb_spec x c) as [->|Hne]; [|done].
  by destruct Hc as [-> | [-> | ->]].
Qed.

(** Tags that differ only by a colon, a slash or a space against an
    underscore get the same chart file, so the later chart overwrites the
    earlier one. *)
Theorem get_safe_filename_collides (charts_dir query_str prefix : string)
    (c : ascii) :
  c = ":"%char ∨ c = "/"%char ∨ c = " "%char →
  get_safe_filename charts_dir (Str.replace_char c "_" query_str) prefix
  = get_safe_filename charts_dir query_str prefix.
Proof.
  intros Hc. by rewrite !get_safe_filename_eq, safe_tag_replaced.
Qed.

Lemma get_safe_filename_collides_witness :
  get_safe_filename "/srv/charts" "re_zero" "popularity"
  = get_safe_filename "/srv/charts" "re:zero" "popularity".
Proof.
  apply (get_safe_filename_collides "/srv/charts" "re:zero" "popularity" ":").
  by left.
Defined.

(** ** The shape of accepted tags *)

Lemma has_parens_iff t :
  has_parens t = true ↔ ∃ a b, t = a +:+ "_(" +:+ b +:+ ")".
Proof.
  unfold has_parens. rewrite andb_true_iff, contains_iff, endswith_iff. split.
  - intros [(a & b0 & Hab) [c Hc]].
    assert (chars a ++ chars "_(" ++ chars b0 = chars c ++ chars ")") as Heq.
    { by rewrite <- !chars_append, <- Hab, <- Hc. }
    destruct (chars b0) as [|x l _] eqn:Hb0 using rev_ind.
    + exfalso. rewrite app_nil_r in Heq.
      change (chars "_(") with (["_"] ++ ["("])%char in Heq.
      change (chars ")") with [")"%char] in Heq.
      rewrite app_assoc in Heq. by apply app_inj_tail in Heq as [_ ?].
    + change (chars ")") with [")"%char] in Heq.
      rewrite !app_assoc in Heq. apply app_inj_tail in Heq as [_ ->].
      exists a, (string_of_list_ascii l). rewrite Hab. apply chars_inj.
      rewrite !chars_append, Hb0. unfold chars at 4.
      by rewrite list_ascii_of_string_of_list_ascii.
  - intros (a & b & ->). split.
    + by exists a, (b +:+ ")").
    + exists (a +:+ "_(" +:+ b). by rewrite !append_assoc.
Qed.

Lemma endswith_any_false t sufs :
  Str.endswith_any t sufs = false ↔
  ∀ suf, suf ∈ sufs → ¬ ∃ a, t = a +:+ suf.
Proof.
  unfold Str.endswith_any. induction sufs as [|s sufs IH]; cbn.
  - split; [by intros _ suf ?%elem_of_nil|done].
  - rewrite orb_false_iff, IH, <- not_true_iff_false, endswith_iff. split.
    + intros [Hs Hall] suf [->|Hin]%elem_of_cons; auto.
    + intros Hall. split; [apply Hall; by left|].
      intros suf Hin. apply Hall. by right.
Qed.

(** A tag is ranked exactly when it is not on the denylist, is a VIP or
    reads [name_(qualifier)] (the name and the qualifier may be empty),
    and does not end with a banned suffix. *)
Theorem classify_shape (t : string) :
  classify t = true ↔
  (t ∉ SPECIFIC_BANS) ∧
  (t ∈ VIPS ∨ ∃ name qualifier, t = name +:+ "_(" +:+ qualifier +:+ ")") ∧
  ∀ suf, suf ∈ BAD_SUFFIXES → ¬ ∃ a, t = a +:+ suf.
Proof.
  rewrite classify_unfold, <- has_parens_iff, <- endswith_any_false.
  case_bool_decide as Hban; [split; [done|tauto]|].
  case_bool_decide as Hvip; cbn [orb].
  - rewrite negb_true_iff. tauto.
  - destruct (has_parens t); [rewrite negb_true_iff; tauto|].
    split; [done|]. intros (_ & [?|?] & _); done.
Qed.

(** Every tag of the VIP allowlist is ranked: none of them is on the
    denylist or ends with a banned suffix. *)
Theorem vips_accepted (t : string) : t ∈ VIPS → classify t = true.
Proof.
  unfold VIPS. rewrite elem_of_list_to_set. intros Hin.
  repeat (apply elem_of_cons in Hin as [->|Hin]; [by vm_compute|]).
  by apply elem_of_nil in Hin.
Qed.

Lemma vips_accepted_witness : classify "cirno" = true.
Proof.
  apply (vips_accepted "cirno").
  apply (bool_decide_unpack _). vm_compute. exact I.
Defined.

(** ** The frequency table *)

Lemma occurrences_pos t tokens : (0 < occurrences t tokens)%nat ↔ t ∈ tokens.
Proof.
  unfold occurrences. induction tokens as [|t0 tokens IH]; cbn.
  - split; [lia|by intros ?%elem_of_nil].
  - rewrite elem_of_cons, <- IH.
    destruct (String.eqb_spec t t0) as [->|Hne]; cbn; [split; [auto|lia]|].
    split; [auto|]. by intros [?|?].
Qed.

Lemma Counter_fold_keys tokens c t :
  t ∈ (fold_left (λ c t, counter_incr t c) tokens c).*1 ↔
  t ∈ c.*1 ∨ t ∈ tokens.
Proof.
  revert c. induction tokens as [|t0 tokens IH]; intros c; cbn.
  - rewrite elem_of_nil. tauto.
  - rewrite IH, counter_incr_keys, elem_of_cons.
    destruct (decide (t0 ∈ c.*1)) as [Hin|Hnin].
    + split; [tauto|]. intros [?|[->|?]]; auto.
    + rewrite elem_of_app, list_elem_of_singleton. tauto.
Qed.

Lemma Counter_keys tokens t : t ∈ (Counter tokens).*1 ↔ t ∈ tokens.
Proof.
  unfold Counter. rewrite Counter_fold_keys. cbn. rewrite elem_of_nil. tauto.
Qed.

Lemma Counter_items tokens t n :
  (t, n) ∈ Counter tokens ↔ n = occurrences t tokens ∧ t ∈ tokens.
Proof.
  split.
  - intros Hin. split.
    + rewrite <- count_of_Counter. symmetry.
      by apply count_of_elem; [apply NoDup_Counter|].
    + apply Counter_keys. apply list_elem_of_fmap. by exists (t, n).
  - intros [-> Hin]. apply Counter_keys, list_elem_of_fmap in Hin
      as ([t' m] & Ht & Hin). cbn in Ht. subst t'.
    rewrite <- count_of_Counter.
    by rewrite (count_of_elem _ _ _ (NoDup_Counter tokens) Hin).
Qed.

(** [Counter(all_tags)] holds each distinct token once, with the number
    of its occurrences, which is positive; a token that does not occur
    counts 0. *)
Theorem Counter_counts (tokens : list string) (t : string) (n : nat) :
  NoDup (Counter tokens).*1 ∧
  (t ∈ (Counter tokens).*1 ↔ t ∈ tokens) ∧
  count_of (Counter tokens) t = occurrences t tokens ∧
  ((t, n) ∈ Counter tokens ↔ n = occurrences t tokens ∧ (0 < n)%nat).
Proof.
  split_and!; [apply NoDup_Counter|apply Counter_keys|apply count_of_Counter|].
  rewrite Counter_items. split.
  - intros [-> Hin]. split; [done|]. by apply occurrences_pos.
  - intros [-> Hpos]. split; [done|]. by apply occurrences_pos.
Qed.

Lemma occurrences_perm t tokens tokens' :
  tokens ≡ₚ tokens' → occurrences t tokens = occurrences t tokens'.
Proof.
  unfold occurrences.
  induction 1 as [|x l l' _ IH|x y l|l l' l'' _ IH1 _ IH2]; cbn.
  - done.
  - destruct (String.eqb t x); cbn; by rewrite IH.
  - by destruct (String.eqb t x), (String.eqb t y).
  - by rewrite IH1.
Qed.

(** The frequency table does not depend on the order of the tokens, hence
    of the records: a permutation of the tokens gives the same items, up
    to the order of the keys. *)
Theorem Counter_order_independent (tokens tokens' : list string) :
  tokens ≡ₚ tokens' →
  Counter tokens ≡ₚ Counter tokens' ∧
  ∀ t, count_of (Counter tokens) t = count_of (Counter tokens') t.
Proof.
  intros Hperm. split.
  - apply NoDup_Permutation.
    + eapply NoDup_fmap_1, NoDup_Counter.
    + eapply NoDup_fmap_1, NoDup_Counter.
    + intros [t n]. rewrite !Counter_items.
      by rewrite (occurrences_perm t _ _ Hperm), Hperm.
  - intros t. rewrite !count_of_Counter. by apply occurrences_perm.
Qed.

Lemma Counter_order_independent_witness :
  Counter ["solo"; "1girl"; "solo"] ≡ₚ Counter ["1girl"; "solo"; "solo"] ∧
  Counter ["solo"; "1girl"; "solo"] ≠ Counter ["1girl"; "solo"; "solo"].
Proof.
  split; [|discriminate].
  apply (Counter_order_independent ["solo"; "1girl"; "solo"]
           ["1girl"; "solo"; "solo"]).
  apply perm_swap.
Defined.

(** ** Ranking by count *)

Lemma insert_desc_with_count k x l :
  with_count k (insert_desc x l) = with_count k (x :: l).
Proof.
  unfold with_count. induction l as [|y l IH]; [done|].
  cbn [insert_desc]. destruct (Nat.ltb_spec x.2 y.2) as [Hlt|Hge]; [|done].
  cbn [List.filter] in *. rewrite IH.
  destruct (Nat.eqb_spec y.2 k) as [Hy|Hy]; [|done].
  by rewrite (proj2 (Nat.eqb_neq x.2 k)) by lia.
Qed.

Lemma sort_desc_with_count k c : with_count k (sort_desc c) = with_count k c.
Proof.
  induction c as [|x c IH]; [done|]. cbn [sort_desc foldr].
  rewrite insert_desc_with_count. unfold with_count in *. cbn [List.filter].
  unfold sort_desc in IH. by rewrite IH.
Qed.

(** [most_common(n)] returns the first [n] items of a stable sort by
    descending count: the sort permutes the table, the result is in
    non-increasing order of count, items of equal count keep the order in
    which the table holds them, and the result has [min(n, len)] items. *)
Theorem most_common_stable (n : nat) (c : counter) :
  sort_desc c ≡ₚ c ∧
  most_common n c `prefix_of` sort_desc c ∧
  StronglySorted count_desc (most_common n c) ∧
  (∀ k, with_count k (sort_desc c) = with_count k c) ∧
  length (most_common n c) = Nat.min n (length c).
Proof.
  split_and!.
  - apply sort_desc_perm.
  - exists (drop n (sort_desc c)). unfold most_common.
    by rewrite take_drop.
  - eapply StronglySorted_sublist; [apply most_common_sublist|].
    apply sort_desc_sorted.
  - intros k. apply sort_desc_with_count.
  - unfold most_common. by rewrite length_take, sort_desc_perm.
Qed.

Lemma bool_filter_perm {A} (f : A → bool) (l l' : list A) :
  l ≡ₚ l' → List.filter f l ≡ₚ List.filter f l'.
Proof.
  induction 1 as [|x l l' _ IH|x y l|l l' l'' _ IH1 _ IH2]; cbn.
  - done.
  - destruct (f x); by rewrite IH.
  - destruct (f x), (f y); try done. apply perm_swap.
  - by rewrite IH1.
Qed.

(** When the vocabulary has at most 5000 distinct tags of which at most
    10 qualify, [get_top_waifus_by_year] lists every qualifying tag: the
    result holds exactly the tokens that pass the classifier. *)
Theorem top_chars_complete (tokens : list string) (t : string) :
  (length (Counter tokens) ≤ 5000)%nat →
  (length (List.filter qualifies (Counter tokens)) ≤ 10)%nat →
  t ∈ top_chars_of (Counter tokens) ↔ t ∈ tokens ∧ classify t = true.
Proof.
  intros Hvoc Hfew. rewrite top_chars_of_take. unfold most_common.
  rewrite (take_ge (sort_desc _)) by by rewrite sort_desc_perm.
  rewrite take_ge
    by by rewrite (bool_filter_perm _ _ _ (sort_desc_perm _)).
  rewrite list_elem_of_fmap. split.
  - intros ([t' n] & -> & Hin). cbn.
    apply list_elem_of_In, filter_In in Hin as [Hin Hq].
    apply list_elem_of_In in Hin. rewrite sort_desc_perm in Hin.
    split; [|done]. apply Counter_keys, list_elem_of_fmap. by exists (t', n).
  - intros [Hin Hc]. apply Counter_keys, list_elem_of_fmap in Hin
      as ([t' n] & Ht & Hin). cbn in Ht. subst t'.
    exists (t, n). split; [done|].
    apply list_elem_of_In, filter_In. split; [|done].
    apply list_elem_of_In. by rewrite sort_desc_perm.
Qed.

Lemma top_chars_complete_witness :
  "rem_(re:zero)" ∈ top_chars_of (Counter ["1girl"; "rem_(re:zero)"; "solo"]).
Proof.
  apply (top_chars_complete ["1girl"; "rem_(re:zero)"; "solo"]).
  - apply Nat.leb_le. vm_compute. reflexivity.
  - apply Nat.leb_le. vm_compute. reflexivity.
  - split; [|reflexivity]. apply (bool_decide_unpack _). vm_compute. exact I.
Defined.

(** ** Tokens of a subset *)






(** ** What the yearly tools list *)



Lemma str_contains_Some pat r :
  str_contains pat r = true ↔
  ∃ s, tag_string r = Some s ∧ Str.contains pat s = true.
Proof.
  unfold str_contains. destruct (tag_string r) as [s|].
  - split; [by exists s|]. by intros (s' & [= <-] & ?).
  - split; [done|]. by intros (s' & ? & ?).
Qed.





(** ** Charts and failures *)

(** A tool writes a chart exactly when its result reports one, and then
    writes that file only: every failure, and every run of
    [get_top_waifus_by_year] and [calculate_ship_dependency], leaves the
    charts directory untouched. *)
Theorem charts_match_report (charts_dir : string) (df : DataFrame) (year : Z)
    (tag char1 char2 : string) :
  (get_top_waifus_by_year df year).1 = [] ∧
  (calculate_ship_dependency df char1 char2).1 = [] ∧
  (get_character_stats charts_dir df tag).1
  = reported_chart (get_character_stats charts_dir df tag).2 ∧
  (analyze_tag_driver charts_dir df year tag).1
  = reported_chart (analyze_tag_driver charts_dir df year tag).2 ∧
  (compare_characters charts_dir df char1 char2).1
  = reported_chart (compare_characters charts_dir df char1 char2).2.
Proof.
  split_and!.
  - unfold get_top_waifus_by_year.
    destruct (empty df), (negb (YearInput year)); try done.
    by destruct (empty _).
  - unfold calculate_ship_dependency. destruct (empty df); [done|].
    by case_bool_decide.
  - unfold get_character_stats. destruct (empty df); [done|].
    by destruct (empty _).
  - unfold analyze_tag_driver.
    destruct (empty df), (negb (YearInput year)); try done.
    by destruct (empty _).
  - unfold compare_characters. destruct (empty df); [done|].
    destruct (get_stats df char1) as [[??]|]; [|done].
    by destruct (get_stats df char2) as [[??]|].
Qed.

(** On a loaded dataset the two yearly tools reject exactly the years
    outside 2005-2025, whatever the records hold. *)
Theorem year_validation (charts_dir : string) (df : DataFrame) (year : Z)
    (tag : string) :
  df ≠ [] →
  (get_top_waifus_by_year df year = ([], InputError year)
   ↔ ¬ (2005 <= year <= 2025)) ∧
  (analyze_tag_driver charts_dir df year tag = ([], YearOutOfRange)
   ↔ ¬ (2005 <= year <= 2025)).
Proof.
  intros Hdf. unfold get_top_waifus_by_year, analyze_tag_driver, YearInput.
  destruct df as [|r df]; [done|]. cbn [empty].
  destruct (Z.leb_spec 2005 year), (Z.leb_spec year 2025); cbn [andb negb];
    try (split; (split; [intros _; lia|done])).
  split.
  - destruct (empty _); (split; [done|lia]).
  - destruct (empty _); (split; [done|lia]).
Qed.

Lemma year_validation_witness :
  get_top_waifus_by_year demo_df 2030 = ([], InputError 2030) ∧
  analyze_tag_driver "/srv/charts" demo_df 2004 "solo" = ([], YearOutOfRange).
Proof.
  assert (demo_df ≠ []) as Hdf by discriminate.
  split.
  - apply (year_validation "/srv/charts" demo_df 2030 "solo" Hdf). lia.
  - apply (year_validation "/srv/charts" demo_df 2004 "solo" Hdf). lia.
Defined.

(** ** Comparison: missing tags and argument order *)

Lemma get_stats_None df tag : get_stats df tag = None ↔ total_of df tag = 0%nat.
Proof.
  rewrite get_stats_total. by destruct (Nat.eqb_spec (total_of df tag) 0).
Qed.

(** On a loaded dataset [compare_characters] reports the first tag as not
    found whenever it matches no record, even if the second matches none
    either, and reports the second only when the first is found. *)
Theorem compare_missing (charts_dir : string) (df : DataFrame)
    (char1 char2 : string) :
  df ≠ [] →
  (total_of df char1 = 0%nat →
   compare_characters charts_dir df char1 char2
   = ([], CompareNotFound char1)) ∧
  (total_of df char1 ≠ 0%nat → total_of df char2 = 0%nat →
   compare_characters charts_dir df char1 char2
   = ([], CompareNotFound char2)).
Proof.
  intros Hdf. unfold compare_characters.
  destruct df as [|r df]; [done|]. cbn [empty]. split.
  - intros H1%get_stats_None. by rewrite H1.
  - intros H1 H2%get_stats_None. rewrite H2.
    destruct (get_stats (r :: df) char1) as [[??]|] eqn:Hs; [done|].
    by apply get_stats_None in Hs.
Qed.

Lemma compare_missing_witness :
  compare_characters "/srv/charts" demo_df "ghost_tag" "phantom_tag"
  = ([], CompareNotFound "ghost_tag") ∧
  compare_characters "/srv/charts" demo_df "hatsune_miku" "phantom_tag"
  = ([], CompareNotFound "phantom_tag").
Proof.
  assert (demo_df ≠ []) as Hdf by discriminate.
  split.
  - apply (compare_missing "/srv/charts" demo_df "ghost_tag" "phantom_tag" Hdf).
    reflexivity.
  - apply (compare_missing "/srv/charts" demo_df "hatsune_miku" "phantom_tag"
             Hdf); [vm_compute; discriminate|reflexivity].
Defined.

(** When both tags are found, swapping the arguments of
    [compare_characters] names the same winner exactly when the totals
    differ (or the two tags are the same): on a tie each call names its
    own second argument. *)
Theorem compare_swap (charts_dir : string) (df : DataFrame)
    (char1 char2 : string) :
  (0 < total_of df char1)%nat →
  (0 < total_of df char2)%nat →
  winner_of (compare_characters charts_dir df char1 char2).2
  = winner_of (compare_characters charts_dir df char2 char1).2
  ↔ total_of df char1 ≠ total_of df char2 ∨ char1 = char2.
Proof.
  intros H1 H2. rewrite !compare_characters_found by done.
  cbn zeta. cbn [snd winner_of].
  destruct (Nat.ltb_spec (total_of df char2) (total_of df char1)),
    (Nat.ltb_spec (total_of df char1) (total_of df char2)); try lia.
  - split; [intros _; left; lia|done].
  - split; [intros _; left; lia|done].
  - split; [intros [= ->]; by right|].
    intros [? | ->]; [lia|done].
Qed.

Lemma compare_swap_witness :
  winner_of (compare_characters "/srv/charts" tie_df "x_(one)" "y_(two)").2
  ≠ winner_of (compare_characters "/srv/charts" tie_df "y_(two)" "x_(one)").2.
Proof.
  intros Heq.
  apply (compare_swap "/srv/charts" tie_df "x_(one)" "y_(two)") in Heq
    as [Hne|Hne]; [by vm_compute in Hne|discriminate|
                   vm_compute; lia|vm_compute; lia].
Defined.

(** ** The statistics of one tag *)

Lemma resample_periods r subset :
  (resample_ME_size (r :: subset)).*1
  = seqZ (min_month (r :: subset) (month_of (created_at r)))
      (max_month (r :: subset) (month_of (created_at r))
       - min_month (r :: subset) (month_of (created_at r)) + 1).
Proof.
  rewrite resample_ME_size_eq. cbn zeta.
  rewrite <- list_fmap_compose. apply list_fmap_id.
Qed.

Lemma resample_elem subset p n :
  (p, n) ∈ resample_ME_size subset → n = count_in_month subset p.
Proof.
  destruct subset as [|r subset]; [by intros ?%elem_of_nil|].
  rewrite resample_ME_size_eq. cbn zeta.
  by intros (q & [= -> ->] & _)%list_elem_of_fmap.
Qed.

Lemma count_in_month_pos subset p :
  (0 < count_in_month subset p)%nat →
  ∃ r, r ∈ subset ∧ month_of (created_at r) = p.
Proof.
  unfold count_in_month. induction subset as [|r subset IH]; cbn; [lia|].
  destruct (Z.eqb_spec (month_of (created_at r)) p) as [Heq|Hne].
  - intros _. exists r. split; [by left|done].
  - intros (r' & Hr' & Hp)%IH. exists r'. split; [by right|done].
Qed.

Lemma resample_holds subset p :
  (0 < count_in_month subset p)%nat →
  (p, count_in_month subset p) ∈ resample_ME_size subset.
Proof.
  intros (r' & Hr' & Hp)%count_in_month_pos.
  destruct subset as [|r subset]; [by apply elem_of_nil in Hr'|].
  rewrite resample_ME_size_eq. cbn zeta.
  apply list_elem_of_fmap. exists p. split; [done|].
  apply elem_of_seqZ.
  pose proof (month_bounds (r :: subset) (month_of (created_at r)) r' Hr').
  lia.
Qed.

Lemma resample_sorted subset :
  StronglySorted Z.lt (resample_ME_size subset).*1.
Proof.
  destruct subset as [|r subset]; [constructor|].
  rewrite resample_periods. apply seqZ_lt_sorted.
Qed.

Lemma resample_total subset :
  series_total (resample_ME_size subset) = length subset.
Proof.
  destruct subset as [|r subset]; [done|].
  unfold series_total. rewrite resample_ME_size_eq. cbn zeta.
  rewrite <- list_fmap_compose.
  apply (sum_count_in_month (r :: subset)); [apply NoDup_seqZ|].
  intros r' Hr'. apply elem_of_seqZ.
  pose proof (month_bounds (r :: subset) (month_of (created_at r)) r' Hr').
  lia.
Qed.

Lemma series_max_ge monthly p n :
  (p, n) ∈ monthly → (n ≤ series_max monthly)%nat.
Proof.
  unfold series_max. induction monthly as [|[q m] monthly IH]; cbn [foldr].
  - by intros ?%elem_of_nil.
  - intros [[= -> ->]|Hin]%elem_of_cons; cbn [snd]; [lia|].
    apply IH in Hin. lia.
Qed.

Lemma series_max_le_total monthly :
  (series_max monthly ≤ series_total monthly)%nat.
Proof.
  unfold series_max, series_total.
  induction monthly as [|[q m] monthly IH]; cbn; [done|]. cbn in IH. lia.
Qed.

Lemma series_max_zero monthly :
  series_max monthly = 0%nat → series_total monthly = 0%nat.
Proof.
  unfold series_max, series_total.
  induction monthly as [|[q m] monthly IH]; cbn; [done|].
  cbn in IH. intros H. rewrite IH by lia. lia.
Qed.

Lemma first_with_count_Some m monthly p :
  first_with_count m monthly = Some p →
  ∃ l1 l2, monthly = l1 ++ (p, m) :: l2 ∧ ∀ q, (q, m) ∉ l1.
Proof.
  induction monthly as [|[q n] monthly IH]; cbn; [done|].
  destruct (Nat.eqb_spec n m) as [->|Hne].
  - intros [= ->]. exists [], monthly. split; [done|].
    by intros q' ?%elem_of_nil.
  - intros (l1 & l2 & -> & Hl1)%IH. exists ((q, n) :: l1), l2.
    split; [done|].
    intros q' [[= _ ?]|?]%elem_of_cons; [done|]. by eapply Hl1.
Qed.

Lemma first_with_count_max monthly :
  monthly ≠ [] → is_Some (first_with_count (series_max monthly) monthly).
Proof.
  assert (∀ m, (∃ p, (p, m) ∈ monthly) →
               is_Some (first_with_count m monthly)) as Hfind.
  { intros m. induction monthly as [|[q n] monthly IH]; cbn.
    - by intros [p ?%elem_of_nil].
    - destruct (Nat.eqb_spec n m); [by eexists|].
      intros [p [[= _ ?]|Hin]%elem_of_cons]; [done|]. apply IH. by exists p. }
  intros Hne. apply Hfind. clear Hfind. unfold series_max.
  induction monthly as [|[q n] monthly IH]; [done|]. cbn [foldr snd].
  destruct monthly as [|b monthly].
  - exists q. cbn. rewrite Nat.max_0_r. by left.
  - destruct IH as [p Hp]; [done|].
    destruct (Nat.max_spec n (foldr (λ b acc, Nat.max b.2 acc) 0%nat
                                (b :: monthly))) as [[_ ->]|[_ ->]].
    + exists p. by right.
    + exists q. by left.
Qed.

Lemma get_character_stats_inv charts_dir df tag charts total peak_date
    peak_count still_active save_path :
  get_character_stats charts_dir df tag
  = (charts, CharacterStats tag total peak_date peak_count still_active
               save_path) →
  let subset := loc (str_contains tag) df in
  let monthly := resample_ME_size subset in
  subset ≠ [] ∧
  total = length subset ∧
  peak_date = month_end <$> series_idxmax monthly ∧
  peak_count = series_max monthly ∧
  still_active = match last monthly with
                 | Some (_, n) => (20 <? n)%nat
                 | None => false
                 end.
Proof.
  unfold get_character_stats. destruct (empty df); [done|].
  destruct (loc (str_contains tag) df) as [|r subset] eqn:Hloc; [done|].
  cbn [empty]. intros H. cbn zeta.
  split; [done|]. injection H as _ <- <- <- <- _. by split_and!.
Qed.

(** The statistics [get_character_stats] reports: the total is the number
    of matching records; the peak count is the largest number of matching
    records in any calendar month, at least 1 and at most the total; the
    peak date is the month-end of the earliest month that reaches it. *)
Theorem stats_peak (charts_dir : string) (df : DataFrame) (tag : string)
    (charts : list string) (total : nat) (peak_date : option Timestamp)
    (peak_count : nat) (still_active : bool) (save_path : string) :
  get_character_stats charts_dir df tag
  = (charts, CharacterStats tag total peak_date peak_count still_active
               save_path) →
  let subset := loc (str_contains tag) df in
  total = length subset ∧
  (1 ≤ peak_count)%nat ∧ (peak_count ≤ total)%nat ∧
  ∃ p, peak_date = Some (month_end p) ∧
       peak_count = count_in_month subset p ∧
       (∀ q, (count_in_month subset q ≤ peak_count)%nat) ∧
       (∀ q, count_in_month subset q = peak_count → p <= q).
Proof.
  intros (Hne & -> & -> & -> & _)%get_character_stats_inv. cbn zeta.
  destruct (loc (str_contains tag) df) as [|r subset] eqn:Hloc; [done|].
  clear Hne.
  set (rows := r :: subset). set (monthly := resample_ME_size rows).
  unfold series_idxmax. fold monthly. set (m := series_max monthly).
  assert (1 ≤ m)%nat as Hpos.
  { destruct m eqn:Hmax; [|lia].
    apply series_max_zero in Hmax. unfold monthly in Hmax.
    by rewrite resample_total in Hmax. }
  assert (∀ q, (count_in_month rows q ≤ m)%nat) as Hle.
  { intros q. destruct (count_in_month rows q) eqn:Hq; [lia|].
    rewrite <- Hq. eapply series_max_ge, resample_holds. lia. }
  assert (m ≤ length rows)%nat as Htot.
  { rewrite <- (resample_total rows). apply series_max_le_total. }
  destruct (first_with_count_max monthly) as [p Hp].
  { intros Hnil. unfold m in Hpos. rewrite Hnil in Hpos. cbn in Hpos. lia. }
  fold m in Hp. clearbody m.
  destruct (first_with_count_Some _ _ _ Hp) as (l1 & l2 & Hsplit & Hl1).
  assert ((p, m) ∈ monthly) as Hin.
  { rewrite Hsplit. apply elem_of_app. right. by left. }
  split_and!; [done|done|done|].
  exists p. rewrite Hp.
  split_and!; [done|by apply resample_elem|done|].
  intros q Hq.
  assert ((q, m) ∈ monthly) as Hqin.
  { rewrite <- Hq. apply resample_holds. lia. }
  pose proof (resample_sorted rows) as Hs. fold monthly in Hs.
  rewrite Hsplit in Hs, Hqin. rewrite fmap_app, fmap_cons in Hs. cbn in Hs.
  apply StronglySorted_app_1_r in Hs. apply StronglySorted_inv in Hs as [_ Hs].
  apply elem_of_app in Hqin as [Hqin|Hqin]; [by apply Hl1 in Hqin|].
  apply elem_of_cons in Hqin as [[= ->]|Hqin]; [lia|].
  assert (q ∈ l2.*1) as Hq2
    by (apply list_elem_of_fmap; by exists (q, m)).
  apply (proj1 (Forall_forall _ _) Hs) in Hq2. lia.
Qed.

Lemma stats_peak_witness :
  ∃ p, Some (mkTimestamp 2016 6 30 0) = Some (month_end p) ∧
       3%nat = count_in_month (loc (str_contains "rem_(re:zero)") demo_df) p.
Proof.
  destruct (stats_peak "/srv/charts" demo_df "rem_(re:zero)"
              ["/srv/charts/popularity_rem_(re_zero).png"] 3
              (Some (mkTimestamp 2016 6 30 0)) 3 false
              "/srv/charts/popularity_rem_(re_zero).png")
    as (_ & _ & _ & p & Hd & Hc & _); [reflexivity|].
  exists p. split; [exact Hd|exact Hc].
Defined.

Lemma max_month_attained subset d :
  max_month subset d = d ∨
  ∃ r, r ∈ subset ∧ month_of (created_at r) = max_month subset d.
Proof.
  unfold max_month. induction subset as [|r subset IH]; cbn [foldr].
  - by left.
  - destruct (Z.max_spec (month_of (created_at r))
                (foldr (λ r acc, month_of (created_at r) `max` acc) d subset))
      as [[_ ->]|[_ ->]].
    + destruct IH as [?|(r' & Hr' & Hm)]; [by left|].
      right. exists r'. split; [by right|done].
    + right. exists r. split; [by left|done].
Qed.

Lemma resample_last r subset :
  let hi := max_month (r :: subset) (month_of (created_at r)) in
  last (resample_ME_size (r :: subset))
  = Some (hi, count_in_month (r :: subset) hi).
Proof.
  intros hi. rewrite resample_ME_size_eq. cbn zeta. fold hi.
  set (lo := min_month (r :: subset) (month_of (created_at r))).
  pose proof (month_bounds_default (r :: subset) (month_of (created_at r)))
    as Hd. fold lo hi in Hd.
  replace (hi - lo + 1) with (Z.of_nat (S (Z.to_nat (hi - lo)))) by lia.
  rewrite seqZ_S, fmap_app. change (?f <$> [?x]) with [f x].
  rewrite last_snoc. do 3 f_equal; lia.
Qed.

(** The status [get_character_stats] reports looks at the tag's own last
    month: it is 'Still Active' exactly when more than 20 matching records
    fall in the calendar month of the latest matching record, however long
    ago that month was. *)
Theorem stats_status (charts_dir : string) (df : DataFrame) (tag : string)
    (charts : list string) (total : nat) (peak_date : option Timestamp)
    (peak_count : nat) (still_active : bool) (save_path : string) :
  get_character_stats charts_dir df tag
  = (charts, CharacterStats tag total peak_date peak_count still_active
               save_path) →
  let subset := loc (str_contains tag) df in
  ∃ latest,
    latest ∈ subset ∧
    (∀ r, r ∈ subset →
          month_of (created_at r) <= month_of (created_at latest)) ∧
    (still_active = true ↔
     (20 < count_in_month subset (month_of (created_at latest)))%nat).
Proof.
  intros (Hne & _ & _ & _ & ->)%get_character_stats_inv. cbn zeta.
  destruct (loc (str_contains tag) df) as [|r subset] eqn:Hloc; [done|].
  rewrite resample_last. cbn zeta.
  set (hi := max_month (r :: subset) (month_of (created_at r))).
  assert (∃ latest, latest ∈ r :: subset ∧ month_of (created_at latest) = hi)
    as (latest & Hin & Hlatest).
  { destruct (max_month_attained (r :: subset) (month_of (created_at r)))
      as [Heq|Hex]; [|done].
    exists r. split; [by left|done]. }
  exists latest. rewrite Hlatest. split_and!; [done| |apply Nat.ltb_lt].
  intros r' Hr'.
  pose proof (month_bounds (r :: subset) (month_of (created_at r)) r' Hr').
  fold hi in H. lia.
Qed.

Lemma stats_status_witness :
  ∃ latest,
    latest ∈ loc (str_contains "rem_(re:zero)") demo_df ∧
    (false = true ↔
     (20 < count_in_month (loc (str_contains "rem_(re:zero)") demo_df)
             (month_of (created_at latest)))%nat).
Proof.
  destruct (stats_status "/srv/charts" demo_df "rem_(re:zero)"
              ["/srv/charts/popularity_rem_(re_zero).png"] 3
              (Some (mkTimestamp 2016 6 30 0)) 3 false
              "/srv/charts/popularity_rem_(re_zero).png")
    as (latest & Hin & _ & Hst); [reflexivity|].
  exists latest. split; [exact Hin|exact Hst].
Defined.

(** ** Substring matching *)

Lemma str_contains_mono a b r :
  Str.contains a b = true → str_contains b r = true → str_contains a r = true.
Proof.
  intros Hab. rewrite !str_contains_Some. intros (s & Hs & Hb).
  exists s. split; [done|]. by eapply contains_trans.
Qed.

Lemma length_filter_le {A} (f g : A → bool) (l : list A) :
  (∀ x, f x = true → g x = true) →
  (length (List.filter f l) ≤ length (List.filter g l))%nat.
Proof.
  intros Hfg. induction l as [|x l IH]; cbn; [done|].
  destruct (f x) eqn:Hf.
  - rewrite (Hfg x Hf). cbn. lia.
  - destruct (g x); cbn; lia.
Qed.

(** Tags are matched as substrings of the tag string: whenever [a] occurs
    inside [b], every record counted for [b] is counted for [a] as well,
    so the total of [a] is at least that of [b]. *)
Theorem total_of_substring (df : DataFrame) (a b : string) :
  Str.contains a b = true → (total_of df b ≤ total_of df a)%nat.
Proof.
  intros Hab. unfold total_of, loc. apply length_filter_le.
  intros r. by apply str_contains_mono.
Qed.

Lemma total_of_substring_witness :
  (total_of demo_df "rem_(re:zero)" ≤ total_of demo_df "rem")%nat.
Proof.
  apply (total_of_substring demo_df "rem" "rem_(re:zero)"). reflexivity.
Defined.

Lemma calculate_ship_dependency_inv df char1 char2 charts percentage total
    joint :
  calculate_ship_dependency df char1 char2
  = (charts, ShipAnalysis char1 char2 percentage total joint) →
  total = total_of df char1 ∧ total ≠ 0%nat ∧
  joint
  = length (loc (λ r, str_contains char1 r && str_contains char2 r) df).
Proof.
  intros H. destruct df as [|r0 df0] eqn:Hdf; [done|]. rewrite <- Hdf in *.
  assert (df ≠ []) as Hne by by rewrite Hdf.
  rewrite calculate_ship_dependency_loaded in H by done. cbn zeta in H.
  clear Hdf. case_bool_decide as Hempty; [done|].
  rewrite index_set_inter, !size_index_set in H.
  injection H as _ _ <- <-. split_and!; [done| |done].
  unfold total_of. intros Hz%length_zero_iff_nil.
  by apply index_set_empty in Hz.
Qed.

(** The joint count of [calculate_ship_dependency] never exceeds either
    tag's total.  It is 0, without any error, when the second tag matches
    no record; it is the whole base when the second tag occurs inside the
    first (in particular for a tag against itself), and the second tag's
    whole total when the first occurs inside the second. *)
Theorem ship_joint_bounds (df : DataFrame) (char1 char2 : string)
    (charts : list string) (percentage : float) (total joint : nat) :
  calculate_ship_dependency df char1 char2
  = (charts, ShipAnalysis char1 char2 percentage total joint) →
  total = total_of df char1 ∧
  (joint ≤ total)%nat ∧
  (joint ≤ total_of df char2)%nat ∧
  (total_of df char2 = 0%nat → joint = 0%nat) ∧
  (Str.contains char2 char1 = true → joint = total) ∧
  (Str.contains char1 char2 = true → joint = total_of df char2).
Proof.
  intros (-> & _ & ->)%calculate_ship_dependency_inv.
  assert (length (loc (λ r, str_contains char1 r && str_contains char2 r) df)
          ≤ total_of df char1)%nat as H1.
  { apply length_filter_le. by intros r [? _]%andb_prop. }
  assert (length (loc (λ r, str_contains char1 r && str_contains char2 r) df)
          ≤ total_of df char2)%nat as H2.
  { apply length_filter_le. by intros r [_ ?]%andb_prop. }
  split_and!; [done|done|done|lia| |].
  - intros Hsub. apply Nat.le_antisymm; [done|].
    apply length_filter_le. intros r Hr. rewrite Hr.
    by apply (str_contains_mono _ _ _ Hsub).
  - intros Hsub. apply Nat.le_antisymm; [done|].
    apply length_filter_le. intros r Hr. rewrite Hr.
    by rewrite (str_contains_mono _ _ _ Hsub Hr).
Qed.

Lemma ship_joint_bounds_witness :
  (3 ≤ 8)%nat ∧ (3 ≤ total_of demo_df "rem")%nat.
Proof.
  destruct (ship_joint_bounds demo_df "hatsune_miku" "rem" [] 37.5 8 3)
    as (_ & H1 & H2 & _); [reflexivity|].
  split; [exact H1|exact H2].
Defined.

Lemma year_mask_spec_witness : year_mask 2016 "1girl" march_row = true.
Proof.
  apply (year_mask_spec 2016 "1girl" march_row).
  - unfold ts_wf. cbn. lia.
  - split_and!; [reflexivity| |reflexivity]. cbn. lia.
Defined.

(** ** Tokens *)





(** ** Empty selections *)

Lemma empty_nil (l : DataFrame) : empty l = true ↔ l = [].
Proof. by destruct l. Qed.

(** On a loaded dataset each tool that selects records answers with its
    own no-data message exactly when the selection is empty:
    [get_character_stats] when no tag string contains the tag, the two
    yearly tools (for a year within 2005-2025) when no record passes the
    year and tag mask. *)
Theorem empty_selection (charts_dir : string) (df : DataFrame) (year : Z)
    (tag : string) :
  df ≠ [] →
  2005 <= year <= 2025 →
  (get_character_stats charts_dir df tag = ([], NoDataForTag tag)
   ↔ loc (str_contains tag) df = []) ∧
  (get_top_waifus_by_year df year = ([], NoDataForYear year)
   ↔ loc (year_mask year "1girl") df = []) ∧
  (analyze_tag_driver charts_dir df year tag
   = ([], NoDataForTagInYear tag year)
   ↔ loc (year_mask year tag) df = []).
Proof.
  intros Hdf Hyear.
  unfold get_character_stats, get_top_waifus_by_year, analyze_tag_driver.
  assert (YearInput year = true) as -> by (unfold YearInput; lia).
  assert (empty df = false) as -> by by destruct df.
  cbn [negb]. cbn zeta. rewrite <- !empty_nil.
  split_and!; destruct (empty _); split; intros H;
    first [done|discriminate H].
Qed.

Lemma empty_selection_witness :
  get_character_stats "/srv/charts" demo_df "ghost_tag"
  = ([], NoDataForTag "ghost_tag") ∧
  get_top_waifus_by_year demo_df 2017 = ([], NoDataForYear 2017).
Proof.
  assert (demo_df ≠ []) as Hdf by discriminate.
  assert (2005 <= 2017 <= 2025) as Hy by lia.
  split.
  - apply (empty_selection "/srv/charts" demo_df 2017 "ghost_tag" Hdf Hy).
    reflexivity.
  - apply (empty_selection "/srv/charts" demo_df 2017 "ghost_tag" Hdf Hy).
    reflexivity.
Defined.
